(** * purira_client: the chat page controller, embedded and verified

    A shallow embedding of [src/lib/api.ts] (the message records and the
    [ApiClient] surface) and of the script of [src/routes/+page.svelte]
    (flattening, mood resolution, the send / proactive / background
    actions, the paced reveal and the two periodic tasks).

    Conventions
    - a JS string is a [string]; its characters are code units below 256;
    - an optional field ([mood?: string]) is an [option];
    - a JS object that is compared by identity carries a reference [oref];
    - an [async] function is a computation in the monad [M]: it threads the
      page state, may reject with the text of the error, and emits the
      externally visible events in program order. *)

From Stdlib Require Import String Ascii List ZArith Bool Arith Lia.
From Stdlib Require Import NArith DecimalString.
From Equations Require Import Equations.
Import ListNotations.

Local Open Scope string_scope.
Local Open Scope list_scope.

(* ===================================================================== *)
(** ** JavaScript values *)
(* ===================================================================== *)

(** [if (s)] on a string: only the empty string is falsy. *)
Definition truthy (s : string) : bool := negb (s =? "").

(** [if (o)] on [string | undefined | null]. *)
Definition truthy_opt (o : option string) : bool :=
  match o with
  | Some s => truthy s
  | None => false
  end.

(** [o !== null]. *)
Definition not_null {A : Type} (o : option A) : bool :=
  match o with
  | Some _ => true
  | None => false
  end.

(** WhiteSpace and LineTerminator code units below 256:
    TAB, LF, VT, FF, CR, SP and NBSP. *)
Definition is_space (c : ascii) : bool :=
  let n := nat_of_ascii c in
  (n =? 9)%nat || (n =? 10)%nat || (n =? 11)%nat || (n =? 12)%nat ||
  (n =? 13)%nat || (n =? 32)%nat || (n =? 160)%nat.

Fixpoint trim_start (s : string) : string :=
  match s with
  | EmptyString => EmptyString
  | String c rest => if is_space c then trim_start rest else s
  end.

(** Drops the trailing white space: a character is kept when it is not white
    space or when something is kept after it. *)
Fixpoint trim_end (s : string) : string :=
  match s with
  | EmptyString => EmptyString
  | String c rest =>
      match trim_end rest with
      | EmptyString => if is_space c then EmptyString else String c EmptyString
      | kept => String c kept
      end
  end.

(** [String.prototype.trim]. *)
Definition trim (s : string) : string := trim_end (trim_start s).

(** [s.startsWith(p)]. *)
Fixpoint starts_with (p s : string) : bool :=
  match p, s with
  | EmptyString, _ => true
  | String a p', String b s' => Ascii.eqb a b && starts_with p' s'
  | String _ _, EmptyString => false
  end.

(** [s.includes(p)]. *)
Fixpoint includes (s p : string) : bool :=
  starts_with p s ||
  match s with
  | EmptyString => false
  | String _ s' => includes s' p
  end.

(* ===================================================================== *)
(** ** src/lib/api.ts: records *)
(* ===================================================================== *)

Module Api.

(** [export interface Message]. *)
Record Message : Type := mkMessage {
  role : string;
  content_raw : string;
  content_split : list string;
  mood : option string;
  time : Z;
  image_path : option string;
  message_type : string
}.

(** [export interface SummarizeResponse]. *)
Record SummarizeResponse : Type := mkSummarizeResponse {
  status : string;
  message : string
}.

End Api.

(** [import { api, type Message as ApiMessage } from '$lib/api']. *)
Definition ApiMessage : Type := Api.Message.

(** The object [attachImage] serialises into [attachedImage] and that [send]
    hands to [sendUnifiedMessage]. *)
Record ImageData : Type := mkImageData {
  filename : string;
  data : string
}.

(* ===================================================================== *)
(** ** +page.svelte: messages and flattening *)
(* ===================================================================== *)

(** [interface Message] of the page: one bubble of the timeline. *)
Record Message : Type := mkMessage {
  role : string;
  content : string;
  mood : option string;
  image_path : option string
}.

(** The arrow function given to [flatMap] in [flattenMessages]: the bubbles
    of one server message.  [content_split[1]] is read only under
    [length >= 2], so the default of [nth] is never produced. *)
Definition flattenMessage (msg : ApiMessage) : list Message :=
  if truthy_opt (Api.image_path msg)
     && (2 <=? length (Api.content_split msg))%nat
  then
    [ {| role := Api.role msg;
         content := nth 1 (Api.content_split msg) "";
         mood := Api.mood msg;
         image_path := Api.image_path msg |} ]
  else
    map (fun content =>
           {| role := Api.role msg;
              content := content;
              mood := Api.mood msg;
              image_path := Api.image_path msg |})
        (Api.content_split msg).

(** The bubbles [flattenMessages] returns, as values. *)
Definition flattenMessages_values (apiMessages : list ApiMessage) : list Message :=
  flat_map flattenMessage apiMessages.

(** A [Message] object on the JS heap: [indexOf] compares such objects by
    identity, not by their fields. *)
Record Obj : Type := mkObj {
  oref : nat;
  oval : Message
}.

(** Every object literal evaluated allocates a fresh object: the values get
    consecutive references from [next] on. *)
Fixpoint alloc (next : nat) (vals : list Message) : list Obj :=
  match vals with
  | [] => []
  | v :: rest => {| oref := next; oval := v |} :: alloc (S next) rest
  end.

(** [responseMessages.indexOf(msg)]: the first index holding this very
    object, or [-1]. *)
Fixpoint indexOf (l : list Obj) (o : Obj) : Z :=
  match l with
  | [] => (-1)%Z
  | x :: rest =>
      if (oref x =? oref o)%nat then 0%Z
      else
        let i := indexOf rest o in
        if (i <? 0)%Z then (-1)%Z else (i + 1)%Z
  end.

(* ===================================================================== *)
(** ** The remote service and the host, as seen from the page *)
(* ===================================================================== *)

(** How an awaited promise settles; a rejection carries [String(err)]. *)
Inductive Promise (A : Type) : Type :=
| Fulfilled (a : A)
| Rejected (err : string).
Arguments Fulfilled {A} a.
Arguments Rejected {A} err.

(** [fetch(url, { method: 'HEAD' })]: [response.ok], or a network error. *)
Inductive FetchResult : Type :=
| FetchOk
| FetchNotOk
| FetchThrows.

Module Client.

(** [class ApiClient]: what each method's promise settles to. *)
Record ApiClient : Type := mkApiClient {
  getHistory : Promise (list ApiMessage);
  startSummarization : Promise Api.SummarizeResponse;
  getSummarizationStatus : Promise Api.SummarizeResponse;
  shouldSendProactiveMessage : Promise bool;
  sendProactiveMessage : Promise (list ApiMessage);
  sendUnifiedMessage : string -> list ImageData -> Promise (list ApiMessage);
  triggerWebSearch : Promise (list ApiMessage);
  triggerReminisce : Promise (list ApiMessage)
}.

End Client.

(** The methods of [api], as they appear in the trace. *)
Inductive ApiCall : Type :=
| GetHistory
| StartSummarization
| GetSummarizationStatus
| ShouldSendProactiveMessage
| SendProactiveMessage
| SendUnifiedMessage (text : string) (images : list ImageData)
| TriggerWebSearch
| TriggerReminisce.

(** What the page does to the outside, in program order. *)
Inductive Event : Type :=
| Fetch (url : string)            (* fetch(url, { method: 'HEAD' }) *)
| Request (call : ApiCall)        (* a method of api *)
| Push (o : Obj)                  (* messages.push(o) *)
| SetMood (mood ext : string)     (* currentMood, currentExtension := ... *)
| Tick                            (* await tick(); scrollToBottom() *)
| Sleep (ms : Z)                  (* await new Promise(r => setTimeout(r, ms)) *)
| Alert (text : string)           (* alert(text) *)
| Console (text : string)         (* console.log / console.error *)
| SetInterval (ms : Z)
| ClearInterval.

Definition is_request (e : Event) : bool :=
  match e with
  | Request _ => true
  | _ => false
  end.

Definition is_sleep (e : Event) : bool :=
  match e with
  | Sleep _ => true
  | _ => false
  end.

Definition is_alert (e : Event) : bool :=
  match e with
  | Alert _ => true
  | _ => false
  end.

(* ===================================================================== *)
(** ** +page.svelte: the component state *)
(* ===================================================================== *)

(** The [let] variables of the script that the modelled functions use, the
    poll timer of [startSummarization] and the next free heap reference. *)
Record State : Type := mkState {
  message : string;
  messages : list Obj;
  puriraWriting : bool;
  currentMood : string;
  currentExtension : string;
  menuOpen : bool;
  summarizing : bool;
  summarizeError : string;
  attachedImage : option string;
  pollInterval : bool;
  next_ref : nat
}.

Definition set_message (v : string) (s : State) : State :=
  mkState v (messages s) (puriraWriting s) (currentMood s) (currentExtension s)
          (menuOpen s) (summarizing s) (summarizeError s) (attachedImage s)
          (pollInterval s) (next_ref s).

Definition set_messages (v : list Obj) (s : State) : State :=
  mkState (message s) v (puriraWriting s) (currentMood s) (currentExtension s)
          (menuOpen s) (summarizing s) (summarizeError s) (attachedImage s)
          (pollInterval s) (next_ref s).

Definition set_puriraWriting (v : bool) (s : State) : State :=
  mkState (message s) (messages s) v (currentMood s) (currentExtension s)
          (menuOpen s) (summarizing s) (summarizeError s) (attachedImage s)
          (pollInterval s) (next_ref s).

Definition set_avatar (m e : string) (s : State) : State :=
  mkState (message s) (messages s) (puriraWriting s) m e
          (menuOpen s) (summarizing s) (summarizeError s) (attachedImage s)
          (pollInterval s) (next_ref s).

Definition set_menuOpen (v : bool) (s : State) : State :=
  mkState (message s) (messages s) (puriraWriting s) (currentMood s)
          (currentExtension s) v (summarizing s) (summarizeError s)
          (attachedImage s) (pollInterval s) (next_ref s).

Definition set_summarizing (v : bool) (s : State) : State :=
  mkState (message s) (messages s) (puriraWriting s) (currentMood s)
          (currentExtension s) (menuOpen s) v (summarizeError s)
          (attachedImage s) (pollInterval s) (next_ref s).

Definition set_summarizeError (v : string) (s : State) : State :=
  mkState (message s) (messages s) (puriraWriting s) (currentMood s)
          (currentExtension s) (menuOpen s) (summarizing s) v
          (attachedImage s) (pollInterval s) (next_ref s).

Definition set_attachedImage (v : option string) (s : State) : State :=
  mkState (message s) (messages s) (puriraWriting s) (currentMood s)
          (currentExtension s) (menuOpen s) (summarizing s) (summarizeError s)
          v (pollInterval s) (next_ref s).

Definition set_pollInterval (v : bool) (s : State) : State :=
  mkState (message s) (messages s) (puriraWriting s) (currentMood s)
          (currentExtension s) (menuOpen s) (summarizing s) (summarizeError s)
          (attachedImage s) v (next_ref s).

Definition set_next_ref (v : nat) (s : State) : State :=
  mkState (message s) (messages s) (puriraWriting s) (currentMood s)
          (currentExtension s) (menuOpen s) (summarizing s) (summarizeError s)
          (attachedImage s) (pollInterval s) v.

(** The script's initialisers. *)
Definition initial : State :=
  {| message := ""; messages := []; puriraWriting := false;
     currentMood := "normal"; currentExtension := "png"; menuOpen := false;
     summarizing := false; summarizeError := ""; attachedImage := None;
     pollInterval := false; next_ref := 0 |}.

(* ===================================================================== *)
(** ** The monad of the script's functions *)
(* ===================================================================== *)

(** A call either returns or throws [String(err)]. *)
Inductive Outcome (A : Type) : Type :=
| Returned (a : A)
| Thrown (err : string).
Arguments Returned {A} a.
Arguments Thrown {A} err.

(** State, exceptions and the trace of events emitted by the call. *)
Definition M (A : Type) : Type := State -> Outcome A * State * list Event.

Definition ret {A : Type} (a : A) : M A :=
  fun s => (Returned a, s, []).

Definition bind {A B : Type} (m : M A) (k : A -> M B) : M B :=
  fun s =>
    match m s with
    | (Returned a, s1, t1) =>
        match k a s1 with
        | (r, s2, t2) => (r, s2, t1 ++ t2)
        end
    | (Thrown err, s1, t1) => (Thrown err, s1, t1)
    end.

Declare Scope js_scope.
Delimit Scope js_scope with js.
Notation "x <- m ;; k" := (bind m (fun x => k))
  (at level 61, m at next level, right associativity) : js_scope.
Notation "m ;; k" := (bind m (fun _ => k))
  (at level 61, right associativity) : js_scope.
Local Open Scope js_scope.

Definition throw {A : Type} (err : string) : M A :=
  fun s => (Thrown err, s, []).

Definition get : M State :=
  fun s => (Returned s, s, []).

Definition modify (f : State -> State) : M unit :=
  fun s => (Returned tt, f s, []).

Definition emit (e : Event) : M unit :=
  fun s => (Returned tt, s, [e]).

(** [await api.method(...)]. *)
Definition await {A : Type} (call : ApiCall) (p : Promise A) : M A :=
  fun s =>
    match p with
    | Fulfilled a => (Returned a, s, [Request call])
    | Rejected err => (Thrown err, s, [Request call])
    end.

(** [try { body } catch (err) { handler }]. *)
Definition try_catch {A : Type} (body : M A) (handler : string -> M A) : M A :=
  fun s =>
    match body s with
    | (Returned a, s1, t1) => (Returned a, s1, t1)
    | (Thrown err, s1, t1) =>
        match handler err s1 with
        | (r, s2, t2) => (r, s2, t1 ++ t2)
        end
    end.

(** [try { body } finally { fin }]: [fin] runs on both exits and keeps the
    outcome of [body] unless it throws itself. *)
Definition try_finally {A : Type} (body : M A) (fin : M unit) : M A :=
  fun s =>
    match body s with
    | (r, s1, t1) =>
        match fin s1 with
        | (Returned _, s2, t2) => (r, s2, t1 ++ t2)
        | (Thrown err, s2, t2) => (Thrown err, s2, t1 ++ t2)
        end
    end.

(** [try { body } catch (err) { handler } finally { fin }]. *)
Definition try_catch_finally {A : Type}
    (body : M A) (handler : string -> M A) (fin : M unit) : M A :=
  try_finally (try_catch body handler) fin.

(** The state and the trace a call ends with. *)
Definition final {A : Type} (r : Outcome A * State * list Event) : State :=
  snd (fst r).

Definition trace {A : Type} (r : Outcome A * State * list Event) : list Event :=
  snd r.

Definition outcome {A : Type} (r : Outcome A * State * list Event) : Outcome A :=
  fst (fst r).

(* ===================================================================== *)
(** ** +page.svelte: mood resolution *)
(* ===================================================================== *)

Module Avatar.

(** The object [get_extension] resolves to: [{ mood, extension }]. *)
Record t : Type := mk {
  mood : string;
  extension : string
}.

End Avatar.

(** [`/avatar/${mood}.${format}`]. *)
Definition avatar_url (mood format : string) : string :=
  "/avatar/" ++ mood ++ "." ++ format.

(** [const imageFormats = ['png', 'jpg', 'jpeg', 'gif', 'webp']]. *)
Definition imageFormats : list string := ["png"; "jpg"; "jpeg"; "gif"; "webp"].

(** The recursive call of [get_extension] is made on ["normal"] and only from
    another mood: this is what is left to fall back to. *)
Definition fallbacks_left (mood : string) : nat :=
  if mood =? "normal" then 0%nat else 1%nat.

Section Page.

(** The host and the service during one call. *)
Variable fetch_head : string -> FetchResult.
Variable JSON_parse : string -> option ImageData.
Variable api : Client.ApiClient.

(** The [for (const format of imageFormats)] loop of [get_extension]: the
    first format whose probe is [ok]; a probe that throws is skipped by the
    empty [catch]. *)
Fixpoint probe_formats (mood : string) (formats : list string)
  : option string * list Event :=
  match formats with
  | [] => (None, [])
  | format :: rest =>
      match fetch_head (avatar_url mood format) with
      | FetchOk => (Some format, [Fetch (avatar_url mood format)])
      | FetchNotOk | FetchThrows =>
          let (found, probes) := probe_formats mood rest in
          (found, Fetch (avatar_url mood format) :: probes)
      end
  end.

(** [get_extension] on the mood [m]: the resolved avatar and the probes
    made, in order. *)
Equations? get_extension (m : string) : Avatar.t * list Event
  by wf (fallbacks_left m) lt :=
get_extension m with fetch_head (avatar_url m "mp4") := {
  | FetchOk => (Avatar.mk m "mp4", [Fetch (avatar_url m "mp4")]);
  | _ with probe_formats m imageFormats := {
    | (Some format, probes) =>
        (Avatar.mk m format, Fetch (avatar_url m "mp4") :: probes);
    | (None, probes) with string_dec m "normal" := {
      | right _ =>
          let (result, more) := get_extension "normal" in
          (result, Fetch (avatar_url m "mp4") :: probes ++ more);
      | left _ =>
          (Avatar.mk "normal" "png", Fetch (avatar_url m "mp4") :: probes) } } }.
Proof.
  all: unfold fallbacks_left; simpl.
  all: destruct (String.eqb_spec m "normal"); [contradiction | lia].
Qed.

(** [updateMood]. *)
Definition updateMood (mood : string) : M unit :=
  fun s =>
    let (result, probes) := get_extension mood in
    (Returned tt,
     set_avatar (Avatar.mood result) (Avatar.extension result) s,
     probes ++ [SetMood (Avatar.mood result) (Avatar.extension result)]).

(* =================================================================== *)
(** ** +page.svelte: small steps shared by the handlers *)
(* =================================================================== *)

(** An object literal [{ role, content, ... }]: a fresh object. *)
Definition new_object (v : Message) : M Obj :=
  fun s =>
    (Returned {| oref := next_ref s; oval := v |},
     set_next_ref (S (next_ref s)) s, []).

(** [flattenMessages]: the bubbles of every server message, each a fresh
    object. *)
Definition flattenMessages (apiMessages : list ApiMessage) : M (list Obj) :=
  fun s =>
    let values := flattenMessages_values apiMessages in
    (Returned (alloc (next_ref s) values),
     set_next_ref (next_ref s + length values) s, []).

(** [messages.push(o); messages = messages]. *)
Definition push (o : Obj) : M unit :=
  fun s => (Returned tt, set_messages (messages s ++ [o]) s, [Push o]).

(** [await tick(); scrollToBottom()]. *)
Definition tick : M unit := emit Tick.

(** [await new Promise(resolve => setTimeout(resolve, ms))]. *)
Definition sleep (ms : Z) : M unit := emit (Sleep ms).

Definition alert (text : string) : M unit := emit (Alert text).

Definition console (text : string) : M unit := emit (Console text).

(** [JSON.parse(json)] read as the [{ filename, data }] of an attachment;
    it throws on text that is not JSON. *)
Definition parse (json : string) : M ImageData :=
  fun s =>
    match JSON_parse json with
    | Some imageData => (Returned imageData, s, [])
    | None => (Thrown "SyntaxError", s, [])
    end.

Definition toggleMenu : M unit :=
  modify (fun s => set_menuOpen (negb (menuOpen s)) s).

(* =================================================================== *)
(** ** +page.svelte: the paced reveal *)
(* =================================================================== *)

(** The body of [for (const msg of responseMessages)], run over what is
    left of the array. *)
Fixpoint display_from (responseMessages : list Obj) (delay : Z)
    (left_to_show : list Obj) : M unit :=
  match left_to_show with
  | [] => ret tt
  | msg :: rest =>
      push msg ;;
      (match mood (oval msg) with
       | Some m => if truthy m then updateMood m else ret tt
       | None => ret tt
       end) ;;
      tick ;;
      (if (indexOf responseMessages msg
           <? Z.of_nat (length responseMessages) - 1)%Z
       then sleep delay
       else ret tt) ;;
      display_from responseMessages delay rest
  end.

(** [displayResponseMessages(responseMessages, delay = 1000)]. *)
Definition displayResponseMessages (responseMessages : list Obj)
    (delay : Z) : M unit :=
  display_from responseMessages delay responseMessages.

Definition default_delay : Z := 1000.

(* =================================================================== *)
(** ** +page.svelte: send *)
(* =================================================================== *)

(** The locals [send] captures before it mutates anything. *)
Record Snapshot : Type := mkSnapshot {
  messagesBeforeSend : nat;
  hadAttachment : bool;
  attachmentData : option string
}.

(** [send], from the capture of the rollback point to the first
    [await tick()]: the optimistic append. *)
Definition send_optimistic (text : string) : M Snapshot :=
  s <- get ;;
  let snapshot :=
    {| messagesBeforeSend := length (messages s);
       hadAttachment := not_null (attachedImage s);
       attachmentData := attachedImage s |} in
  imageFilename <-
    (match attachedImage s with
     | Some json =>
         if truthy json
         then (imageData <- parse json ;; ret (Some (filename imageData)))
         else ret None
     | None => ret None
     end) ;;
  user <- new_object {| role := "user"; content := text;
                        mood := None; image_path := imageFilename |} ;;
  push user ;;
  modify (set_message "") ;;
  modify (set_attachedImage None) ;;
  modify (set_puriraWriting true) ;;
  tick ;;
  ret snapshot.

(** The [try] block of [send]. *)
Definition send_try (text : string) (snapshot : Snapshot) : M unit :=
  apiMessages <-
    (match attachmentData snapshot with
     | Some json =>
         if hadAttachment snapshot && truthy json
         then (imageData <- parse json ;;
               await (SendUnifiedMessage text [imageData])
                     (Client.sendUnifiedMessage api text [imageData]))
         else await (SendUnifiedMessage text [])
                    (Client.sendUnifiedMessage api text [])
     | None => await (SendUnifiedMessage text [])
                     (Client.sendUnifiedMessage api text [])
     end) ;;
  responseMessages <- flattenMessages apiMessages ;;
  displayResponseMessages responseMessages default_delay.

(** The [catch] block of [send]: [messages.slice(0, messagesBeforeSend)],
    the attachment put back, then the alert. *)
Definition send_catch (snapshot : Snapshot) (err : string) : M unit :=
  console ("Failed to send message: " ++ err) ;;
  modify (fun s =>
    set_messages (firstn (messagesBeforeSend snapshot) (messages s)) s) ;;
  (if hadAttachment snapshot
   then modify (set_attachedImage (attachmentData snapshot))
   else ret tt) ;;
  if includes err "503" || includes err "summarization"
  then alert "Cannot send messages while summarization is in progress. Please wait."
  else alert ("Error: " ++ err).

(** [if (!text || puriraWriting || summarizing) return;] *)
Definition send_rejects (s : State) : bool :=
  negb (truthy (trim (message s))) || puriraWriting s || summarizing s.

(** [send]. *)
Definition send : M unit :=
  s <- get ;;
  let text := trim (message s) in
  if send_rejects s then ret tt
  else
    snapshot <- send_optimistic text ;;
    try_catch_finally
      (send_try text snapshot)
      (send_catch snapshot)
      (modify (set_puriraWriting false)).

(* =================================================================== *)
(** ** +page.svelte: proactive messages and background actions *)
(* =================================================================== *)

Definition busy (s : State) : bool := puriraWriting s || summarizing s.

Definition please_wait : string :=
  "Please wait for the current operation to complete.".

(** The [try] block shared by the two proactive variants. *)
Definition proactive_try : M unit :=
  apiMessages <- await SendProactiveMessage (Client.sendProactiveMessage api) ;;
  responseMessages <- flattenMessages apiMessages ;;
  displayResponseMessages responseMessages default_delay.

(** [sendProactiveMessage]: the menu entry. *)
Definition sendProactiveMessage : M unit :=
  toggleMenu ;;
  s <- get ;;
  if busy s then alert please_wait
  else
    modify (set_puriraWriting true) ;;
    try_catch_finally
      proactive_try
      (fun err =>
         console ("Failed to send proactive message: " ++ err) ;;
         alert ("Error: " ++ err))
      (modify (set_puriraWriting false)).

(** [sendProactiveMessageAuto]: no menu toggle, no alerts. *)
Definition sendProactiveMessageAuto : M unit :=
  s <- get ;;
  if busy s then ret tt
  else
    modify (set_puriraWriting true) ;;
    try_catch_finally
      proactive_try
      (fun err =>
         console ("Failed to send automatic proactive message: " ++ err))
      (modify (set_puriraWriting false)).

(** [triggerWebSearch]: the response is awaited and dropped. *)
Definition triggerWebSearch : M unit :=
  toggleMenu ;;
  s <- get ;;
  if busy s then alert please_wait
  else
    modify (set_puriraWriting true) ;;
    try_catch_finally
      (await TriggerWebSearch (Client.triggerWebSearch api) ;;
       console "Web search completed successfully")
      (fun err =>
         console ("Failed to trigger web search: " ++ err) ;;
         alert ("Error: " ++ err))
      (modify (set_puriraWriting false)).

(** [triggerReminisce]: the response is awaited and dropped. *)
Definition triggerReminisce : M unit :=
  toggleMenu ;;
  s <- get ;;
  if busy s then alert please_wait
  else
    modify (set_puriraWriting true) ;;
    try_catch_finally
      (await TriggerReminisce (Client.triggerReminisce api) ;;
       console "Reminisce completed successfully")
      (fun err =>
         console ("Failed to trigger reminisce: " ++ err) ;;
         if includes err "Not enough messages"
         then alert "Not enough messages to reminisce about (need at least 10)"
         else alert ("Error: " ++ err))
      (modify (set_puriraWriting false)).

(* =================================================================== *)
(** ** +page.svelte: the periodic tasks *)
(* =================================================================== *)

(** The callback of [proactiveCheckInterval], one tick. *)
Definition proactiveCheck : M unit :=
  try_catch
    (s <- get ;;
     if busy s then ret tt
     else
       shouldSend <- await ShouldSendProactiveMessage
                           (Client.shouldSendProactiveMessage api) ;;
       if (shouldSend : bool)
       then
         console "15 minutes elapsed since last user message, sending proactive message" ;;
         sendProactiveMessageAuto
       else ret tt)
    (fun err => console ("Failed to check for proactive message: " ++ err)).

(** [clearInterval(pollInterval)]. *)
Definition clearPoll : M unit :=
  emit ClearInterval ;; modify (set_pollInterval false).

(** The callback of [pollInterval], one tick. *)
Definition pollCallback : M unit :=
  try_catch
    (status <- await GetSummarizationStatus
                     (Client.getSummarizationStatus api) ;;
     if Api.status status =? "idle"
     then
       clearPoll ;;
       modify (set_summarizing false) ;;
       console "Summarization completed"
     else ret tt)
    (fun err =>
       clearPoll ;;
       modify (set_summarizing false) ;;
       modify (set_summarizeError ("Failed to check status: " ++ err)) ;;
       console ("Status check error: " ++ err)).

(** [startSummarization]. *)
Definition startSummarization : M unit :=
  toggleMenu ;;
  modify (set_summarizing true) ;;
  modify (set_summarizeError "") ;;
  try_catch
    (response <- await StartSummarization (Client.startSummarization api) ;;
     console ("Summarization started: " ++ Api.message response) ;;
     emit (SetInterval 2000) ;;
     modify (set_pollInterval true))
    (fun err =>
       modify (set_summarizing false) ;;
       modify (set_summarizeError ("Failed to start summarization: " ++ err)) ;;
       console ("Summarization error: " ++ err)).

End Page.

(* ===================================================================== *)
(** ** The poll timer over time *)
(* ===================================================================== *)

(** [setInterval(callback, 2000)] until [clearInterval]: at each period the
    callback runs against the service as it is then, as long as the timer is
    set. *)
Fixpoint poll_run (periods : list Client.ApiClient) (s : State)
  : State * list Event :=
  match periods with
  | [] => (s, [])
  | api :: later =>
      if pollInterval s
      then
        let r := pollCallback api s in
        let (s', t) := poll_run later (final r) in
        (s', trace r ++ t)
      else (s, [])
  end.

(* ===================================================================== *)
(** ** Vocabulary of the properties *)
(* ===================================================================== *)

(** The bubble a server message gives for one of its segments. *)
Definition bubble (msg : ApiMessage) (segment : string) : Message :=
  {| role := Api.role msg; content := segment;
     mood := Api.mood msg; image_path := Api.image_path msg |}.

(** The message carries an image reference, as [flattenMessages] tests it:
    [msg.image_path] is present and not the empty string. *)
Definition carries_image (msg : ApiMessage) : Prop :=
  truthy_opt (Api.image_path msg) = true.

(** The fixed extensions, in probing order: the video first, then
    [imageFormats]. *)
Definition extensions : list string := "mp4" :: imageFormats.

(** One round of probes for a mood, in order. *)
Definition candidates (mood : string) : list Event :=
  map (fun ext => Fetch (avatar_url mood ext)) extensions.

(** [p] is what a round that stopped early has probed of [l]. *)
Definition prefix_of (p l : list Event) : Prop :=
  exists rest, l = p ++ rest.

(** No asset answers [ok] for this mood, whatever the extension. *)
Definition no_asset (fetch_head : string -> FetchResult) (mood : string)
  : Prop :=
  forall ext, In ext extensions ->
    fetch_head (avatar_url mood ext) <> FetchOk.

(** What one call of [get_extension] gives when it does not recurse: the
    probes of a single round, stopped at the first asset found. *)
Definition one_round (mood : string) (result : Avatar.t)
    (probes : list Event) : Prop :=
  In (Avatar.extension result) extensions
  /\ probes <> []
  /\ prefix_of probes (candidates mood).

(** The outcome of [get_extension]: one round, or the full round of the
    requested mood followed by one round of ["normal"]. *)
Definition at_most_two_rounds (mood : string) (result : Avatar.t)
    (probes : list Event) : Prop :=
  one_round mood result probes
  \/ (mood <> "normal"
      /\ exists second,
           probes = candidates mood ++ second
           /\ one_round "normal" result second).

Section RevealTerms.

Variable fetch_head : string -> FetchResult.

(** The presentation mood after a message: resolved from its mood when it
    carries one, left as it is otherwise. *)
Definition apply_mood (msg : Obj) (s : State) : State :=
  match mood (oval msg) with
  | Some m =>
      if truthy m
      then
        set_avatar (Avatar.mood (fst (get_extension fetch_head m)))
                   (Avatar.extension (fst (get_extension fetch_head m))) s
      else s
  | None => s
  end.

(** The probes and the mood update a message causes. *)
Definition mood_events (msg : Obj) : list Event :=
  match mood (oval msg) with
  | Some m =>
      if truthy m
      then
        snd (get_extension fetch_head m)
          ++ [SetMood (Avatar.mood (fst (get_extension fetch_head m)))
                      (Avatar.extension (fst (get_extension fetch_head m)))]
      else []
  | None => []
  end.

(** The reveal in the words of the specification: for each message in
    order, append it, resolve and update the mood if it carries one, yield
    to the rendering loop, and suspend for the delay unless it is the last
    of the batch. *)
Fixpoint reveal_spec (delay : Z) (batch : list Obj) : list Event :=
  match batch with
  | [] => []
  | msg :: rest =>
      Push msg :: mood_events msg ++ Tick ::
        match rest with
        | [] => []
        | _ :: _ => Sleep delay :: reveal_spec delay rest
        end
  end.

(** The state the reveal of a batch leads to. *)
Definition reveal_state (batch : list Obj) (s : State) : State :=
  fold_left
    (fun s msg => apply_mood msg (set_messages (messages s ++ [msg]) s))
    batch s.

End RevealTerms.

Section SendTerms.

Variable fetch_head : string -> FetchResult.
Variable JSON_parse : string -> option ImageData.

(** The objects a response is flattened into in state [s]. *)
Definition response_batch (apiMessages : list ApiMessage) (s : State)
  : list Obj :=
  alloc (next_ref s) (flattenMessages_values apiMessages).

(** The state after a response has been flattened and revealed. *)
Definition revealed (apiMessages : list ApiMessage) (s : State) : State :=
  reveal_state fetch_head (response_batch apiMessages s)
    (set_next_ref
       (next_ref s + length (flattenMessages_values apiMessages)) s).

(** The [image_path] of the optimistic message: [None] inside when there
    is nothing to attach, [None] outside when [JSON.parse] throws. *)
Definition optimistic_filename (s : State) : option (option string) :=
  match attachedImage s with
  | Some json =>
      if truthy json
      then
        match JSON_parse json with
        | Some imageData => Some (Some (filename imageData))
        | None => None
        end
      else Some None
  | None => Some None
  end.

(** The optimistic user message. *)
Definition optimistic_message (text : string) (imageFilename : option string)
    (s : State) : Obj :=
  {| oref := next_ref s;
     oval := {| role := "user"; content := text; mood := None;
                image_path := imageFilename |} |}.

(** The state in which [send] enters its [try] block. *)
Definition optimistic_state (text : string) (imageFilename : option string)
    (s : State) : State :=
  set_puriraWriting true
    (set_attachedImage None
       (set_message ""
          (set_messages (messages s ++ [optimistic_message text imageFilename s])
             (set_next_ref (S (next_ref s)) s)))).

Definition snapshot_of (s : State) : Snapshot :=
  {| messagesBeforeSend := length (messages s);
     hadAttachment := not_null (attachedImage s);
     attachmentData := attachedImage s |}.

(** The [images] argument of the request, [None] when [JSON.parse]
    throws. *)
Definition request_images (snapshot : Snapshot) : option (list ImageData) :=
  match attachmentData snapshot with
  | Some json =>
      if hadAttachment snapshot && truthy json
      then
        match JSON_parse json with
        | Some imageData => Some [imageData]
        | None => None
        end
      else Some []
  | None => Some []
  end.

End SendTerms.

(** The pending attachment is what [attachImage] stores: a text that is
    not empty and that [JSON.parse] reads back as a [{ filename, data }]. *)
Definition attachment_ok (JSON_parse : string -> option ImageData)
    (s : State) : Prop :=
  match attachedImage s with
  | Some json => json <> "" /\ JSON_parse json <> None
  | None => True
  end.

(** The filename of the pending attachment, if there is one. *)
Definition attached_filename (JSON_parse : string -> option ImageData)
    (s : State) : option string :=
  match attachedImage s with
  | Some json => option_map filename (JSON_parse json)
  | None => None
  end.

(** The pending attachment as the [images] of the request: one entry, or
    none. *)
Definition attached_images (JSON_parse : string -> option ImageData)
    (s : State) : list ImageData :=
  match attachedImage s with
  | Some json =>
      match JSON_parse json with
      | Some imageData => [imageData]
      | None => []
      end
  | None => []
  end.

Definition is_push (e : Event) : bool :=
  match e with
  | Push _ => true
  | _ => false
  end.

(** The status query answers with a status other than ["idle"]. *)
Definition in_progress (api : Client.ApiClient) : Prop :=
  exists response,
    Client.getSummarizationStatus api = Fulfilled response
    /\ Api.status response <> "idle".

(* ===================================================================== *)
(** ** Sample services, pages and messages *)
(* ===================================================================== *)

Definition caption_message : ApiMessage :=
  Api.mkMessage "user" "look" ["a photo of a cat"; "look at my cat"]
                (Some "happy") 0 (Some "1700000000000.png") "image".

Definition image_without_text : ApiMessage :=
  Api.mkMessage "user" "" [] None 0 (Some "1700000000000.png") "image".

Definition no_assets_at_all (url : string) : FetchResult := FetchNotOk.

Definition two_alike : list ApiMessage :=
  [Api.mkMessage "assistant" "a a" ["a"; "a"] None 0 None "chat"].

Definition two_alike_batch : list Obj :=
  [ {| oref := 0; oval := {| role := "assistant"; content := "a";
                             mood := None; image_path := None |} |};
    {| oref := 1; oval := {| role := "assistant"; content := "a";
                             mood := None; image_path := None |} |} ].

Definition never_parses (json : string) : option ImageData := None.

Definition greeting_response : list ApiMessage :=
  [ Api.mkMessage "assistant" "hi there" ["hi there"] None 1 None "chat";
    Api.mkMessage "assistant" "how are you" ["how are you"]
                  (Some "excited") 2 None "chat" ].

Definition greeting_service : Client.ApiClient :=
  {| Client.getHistory := Fulfilled [];
     Client.startSummarization := Rejected "Error: API Error 500: down";
     Client.getSummarizationStatus := Rejected "Error: API Error 500: down";
     Client.shouldSendProactiveMessage := Fulfilled false;
     Client.sendProactiveMessage := Fulfilled [];
     Client.sendUnifiedMessage := fun text images => Fulfilled greeting_response;
     Client.triggerWebSearch := Fulfilled [];
     Client.triggerReminisce := Fulfilled [] |}.

Definition typed_hello : State := set_message "  hello " initial.

(** The double quote of JSON texts. *)
Definition dq : string := String (ascii_of_nat 34) "".

(** What [attachImage] stores for a picture of a cat. *)
Definition cat_json : string :=
  "{" ++ dq ++ "filename" ++ dq ++ ":" ++ dq ++ "1700000000000.png" ++ dq
      ++ "," ++ dq ++ "data" ++ dq ++ ":" ++ dq ++ "iVBORw0KGgo=" ++ dq ++ "}".

Definition cat_image : ImageData :=
  {| filename := "1700000000000.png"; data := "iVBORw0KGgo=" |}.

Definition parse_cat (json : string) : option ImageData :=
  if json =? cat_json then Some cat_image else None.

(** A service that is busy summarizing. *)
Definition busy_service : Client.ApiClient :=
  {| Client.getHistory := Fulfilled [];
     Client.startSummarization := Rejected "Error: API Error 503: busy";
     Client.getSummarizationStatus :=
       Fulfilled (Api.mkSummarizeResponse "running" "");
     Client.shouldSendProactiveMessage := Fulfilled true;
     Client.sendProactiveMessage := Rejected "Error: API Error 503: busy";
     Client.sendUnifiedMessage := fun text images =>
       Rejected "Error: API Error 503: summarization in progress";
     Client.triggerWebSearch := Rejected "Error: API Error 503: busy";
     Client.triggerReminisce :=
       Rejected "Error: API Error 400: Not enough messages" |}.

(** One message in the timeline, a text typed and a picture attached. *)
Definition cat_pending : State :=
  {| message := "look at my cat"; 
     messages := [ {| oref := 0;
                      oval := {| role := "assistant"; content := "hello";
                                 mood := None; image_path := None |} |} ];
     puriraWriting := false; currentMood := "normal";
     currentExtension := "png"; menuOpen := false; summarizing := false;
     summarizeError := ""; attachedImage := Some cat_json;
     pollInterval := false; next_ref := 1 |}.

(** A reveal still in progress: the flag is set when the user submits
    again. *)
Definition still_writing : State := set_puriraWriting true typed_hello.

(** A service whose summarization has finished. *)
Definition idle_service : Client.ApiClient :=
  {| Client.getHistory := Fulfilled [];
     Client.startSummarization :=
       Fulfilled (Api.mkSummarizeResponse "started" "Summarization started");
     Client.getSummarizationStatus :=
       Fulfilled (Api.mkSummarizeResponse "idle" "done");
     Client.shouldSendProactiveMessage := Fulfilled false;
     Client.sendProactiveMessage := Fulfilled [];
     Client.sendUnifiedMessage := fun text images => Fulfilled [];
     Client.triggerWebSearch := Fulfilled [];
     Client.triggerReminisce := Fulfilled [] |}.

(** The page while a summarization is polled. *)
Definition summarizing_now : State :=
  set_pollInterval true (set_summarizing true initial).

(* ===================================================================== *)
(** ** A monad for the rest of the script and for the client *)
(* ===================================================================== *)

Module Eff.

(** As [M], over any state and any kind of event. *)
Definition t (S E A : Type) : Type := S -> Outcome A * S * list E.

Section Ops.

Context {S E : Type}.

Definition ret {A : Type} (a : A) : t S E A :=
  fun s => (Returned a, s, []).

Definition bind {A B : Type} (m : t S E A) (k : A -> t S E B) : t S E B :=
  fun s =>
    match m s with
    | (Returned a, s1, t1) =>
        match k a s1 with
        | (r, s2, t2) => (r, s2, t1 ++ t2)
        end
    | (Thrown err, s1, t1) => (Thrown err, s1, t1)
    end.

Definition throw {A : Type} (err : string) : t S E A :=
  fun s => (Thrown err, s, []).

Definition get : t S E S :=
  fun s => (Returned s, s, []).

Definition put (s' : S) : t S E unit :=
  fun _ => (Returned tt, s', []).

Definition modify (f : S -> S) : t S E unit :=
  fun s => (Returned tt, f s, []).

Definition emit (e : E) : t S E unit :=
  fun s => (Returned tt, s, [e]).

(** [await p] for a promise whose settling leaves no event. *)
Definition settle {A : Type} (p : Promise A) : t S E A :=
  fun s =>
    match p with
    | Fulfilled a => (Returned a, s, [])
    | Rejected err => (Thrown err, s, [])
    end.

(** [try { body } catch (err) { handler }]. *)
Definition try_catch {A : Type} (body : t S E A) (handler : string -> t S E A)
  : t S E A :=
  fun s =>
    match body s with
    | (Returned a, s1, t1) => (Returned a, s1, t1)
    | (Thrown err, s1, t1) =>
        match handler err s1 with
        | (r, s2, t2) => (r, s2, t1 ++ t2)
        end
    end.

Definition outcome {A : Type} (r : Outcome A * S * list E) : Outcome A :=
  fst (fst r).

Definition final {A : Type} (r : Outcome A * S * list E) : S :=
  snd (fst r).

Definition trace {A : Type} (r : Outcome A * S * list E) : list E :=
  snd r.

End Ops.

End Eff.

Declare Scope eff_scope.
Delimit Scope eff_scope with eff.
Notation "x <- m ;; k" := (Eff.bind m (fun x => k))
  (at level 61, m at next level, right associativity) : eff_scope.
Notation "m ;; k" := (Eff.bind m (fun _ => k))
  (at level 61, right associativity) : eff_scope.

(** How a call that returns or throws looks to its caller's [await]. *)
Definition promise_of {A : Type} (o : Outcome A) : Promise A :=
  match o with
  | Returned a => Fulfilled a
  | Thrown err => Rejected err
  end.

(** [`${n}`] for a non-negative integer. *)
Definition render_number (n : N) : string :=
  NilZero.string_of_uint (N.to_uint n).

(* ===================================================================== *)
(** ** src/lib/api.ts: the client *)
(* ===================================================================== *)

Module Http.

(** The arguments of one [fetch(url, init)]. *)
Record Request : Type := mkRequest {
  url : string;
  method : option string;
  headers : list (string * string);
  body : option string
}.

(** What the client reads of a [Response]. *)
Record Response : Type := mkResponse {
  ok : bool;
  status : N;
  text : string
}.

(** The [options: RequestInit] a method hands to [request]; an absent
    [headers] is the empty object. *)
Record RequestInit : Type := mkRequestInit {
  init_method : option string;
  init_headers : list (string * string);
  init_body : option string
}.

End Http.

(** A JS object with string values, as its keys in insertion order. *)
Definition JsObject : Type := list (string * string).

(** [o[k]]. *)
Fixpoint lookup (k : string) (o : JsObject) : option string :=
  match o with
  | [] => None
  | (k', v) :: rest => if k' =? k then Some v else lookup k rest
  end.

(** [o[k] = v]: an existing key keeps its place, a new key goes last. *)
Fixpoint set_key (k v : string) (o : JsObject) : JsObject :=
  match o with
  | [] => [(k, v)]
  | (k', v') :: rest =>
      if k' =? k then (k', v) :: rest else (k', v') :: set_key k v rest
  end.

(** [{ ...base, ...extra }]. *)
Definition spread (base extra : JsObject) : JsObject :=
  fold_left (fun o kv => set_key (fst kv) (snd kv) o) extra base.

Module ApiClient.

(** [interface Config], and the two private fields of the client it
    fills. *)
Record Config : Type := mkConfig {
  serverUrl : string;
  apiKey : string
}.

(** The fields as the constructor sets them. *)
Definition defaults : Config :=
  {| serverUrl := "http://localhost:3000"; apiKey := "dev-key" |}.

(** The network and the JSON codec, as the client sees them: [fetch];
    [response.json()] read at the type the caller expects, down to the field
    the method returns ([data.messages], [data.should_send]), rejecting on a
    body that is not JSON; and [JSON.stringify({ text, images })], the body
    of the unified-message request. *)
Record Network : Type := mkNetwork {
  fetch : Http.Request -> Promise Http.Response;
  json_config : string -> Promise Config;
  json_messages : string -> Promise (list ApiMessage);
  json_summarize : string -> Promise Api.SummarizeResponse;
  json_should_send : string -> Promise bool;
  stringify_message : string -> list ImageData -> string
}.

(** What the client does to the outside. *)
Inductive Wire : Type :=
| Sent (request : Http.Request)      (* fetch(url, init) *)
| Warn (text : string).              (* console.warn *)

Definition is_sent (w : Wire) : bool :=
  match w with
  | Sent _ => true
  | Warn _ => false
  end.

Section Methods.

Variable net : Network.

Local Open Scope eff_scope.

(** [await fetch(url, init)]. *)
Definition send_request (request : Http.Request)
  : Eff.t Config Wire Http.Response :=
  fun c =>
    match fetch net request with
    | Fulfilled response => (Returned response, c, [Sent request])
    | Rejected err => (Thrown err, c, [Sent request])
    end.

(** [loadConfig]. *)
Definition loadConfig : Eff.t Config Wire unit :=
  Eff.try_catch
    (response <- send_request
                   {| Http.url := "/config.json"; Http.method := None;
                      Http.headers := []; Http.body := None |} ;;
     if Http.ok response
     then
       config <- Eff.settle (json_config net (Http.text response)) ;;
       Eff.put config
     else Eff.ret tt)
    (fun err =>
       Eff.emit (Warn ("Failed to load config.json, using defaults: " ++ err))).

(** [request<T>(endpoint, options = {})], once [configLoaded] has
    settled. *)
Definition request {T : Type} (json : string -> Promise T)
    (endpoint : string) (options : Http.RequestInit) : Eff.t Config Wire T :=
  c <- Eff.get ;;
  let url := (serverUrl c ++ endpoint)%string in
  response <- send_request
                {| Http.url := url;
                   Http.method := Http.init_method options;
                   Http.headers :=
                     spread [("Authorization", ("Bearer " ++ apiKey c)%string)]
                            (Http.init_headers options);
                   Http.body := Http.init_body options |} ;;
  if negb (Http.ok response)
  then
    Eff.throw ("Error: API Error " ++ render_number (Http.status response)
                 ++ ": " ++ Http.text response)
  else Eff.settle (json (Http.text response)).

(** [request(endpoint)]: no options. *)
Definition no_options : Http.RequestInit :=
  {| Http.init_method := None; Http.init_headers := [];
     Http.init_body := None |}.

(** The options of the [POST] methods. *)
Definition post (body : string) : Http.RequestInit :=
  {| Http.init_method := Some "POST";
     Http.init_headers := [("Content-Type", "application/json")];
     Http.init_body := Some body |}.

Definition getHistory : Eff.t Config Wire (list ApiMessage) :=
  request (json_messages net) "/api/history" no_options.

Definition startSummarization : Eff.t Config Wire Api.SummarizeResponse :=
  request (json_summarize net) "/api/summarize" (post "{}").

Definition getSummarizationStatus : Eff.t Config Wire Api.SummarizeResponse :=
  request (json_summarize net) "/api/summarize/status" no_options.

Definition shouldSendProactiveMessage : Eff.t Config Wire bool :=
  request (json_should_send net) "/api/proactive-message/should-send"
          no_options.

Definition sendProactiveMessage : Eff.t Config Wire (list ApiMessage) :=
  request (json_messages net) "/api/proactive-message" (post "{}").

Definition sendUnifiedMessage (text : string) (images : list ImageData)
  : Eff.t Config Wire (list ApiMessage) :=
  request (json_messages net) "/api/message"
          (post (stringify_message net text images)).

Definition triggerWebSearch : Eff.t Config Wire (list ApiMessage) :=
  request (json_messages net) "/api/background-action/web-search" (post "{}").

Definition triggerReminisce : Eff.t Config Wire (list ApiMessage) :=
  request (json_messages net) "/api/background-action/reminisce" (post "{}").

(** The client once [configLoaded] has settled: the fields [loadConfig]
    leaves, starting from the constructor's. *)
Definition configured : Config := Eff.final (loadConfig defaults).

(** [export const api = new ApiClient()], as the page awaits its methods. *)
Definition api : Client.ApiClient :=
  {| Client.getHistory := promise_of (Eff.outcome (getHistory configured));
     Client.startSummarization :=
       promise_of (Eff.outcome (startSummarization configured));
     Client.getSummarizationStatus :=
       promise_of (Eff.outcome (getSummarizationStatus configured));
     Client.shouldSendProactiveMessage :=
       promise_of (Eff.outcome (shouldSendProactiveMessage configured));
     Client.sendProactiveMessage :=
       promise_of (Eff.outcome (sendProactiveMessage configured));
     Client.sendUnifiedMessage := fun text images =>
       promise_of (Eff.outcome (sendUnifiedMessage text images configured));
     Client.triggerWebSearch :=
       promise_of (Eff.outcome (triggerWebSearch configured));
     Client.triggerReminisce :=
       promise_of (Eff.outcome (triggerReminisce configured)) |}.

End Methods.

End ApiClient.

(* ===================================================================== *)
(** ** +page.svelte: the history load of onMount *)
(* ===================================================================== *)

(** [Array.prototype.findLast]. *)
Definition findLast {A : Type} (p : A -> bool) (l : list A) : option A :=
  find p (rev l).

(** The page state together with [connectionError], the [let] variable the
    history load sets. *)
Record Shell : Type := mkShell {
  page : State;
  connectionError : string
}.

Definition set_page (v : State) (sh : Shell) : Shell :=
  {| page := v; connectionError := connectionError sh |}.

Definition set_connectionError (v : string) (sh : Shell) : Shell :=
  {| page := page sh; connectionError := v |}.

(** A function of the script, run on the page state inside the shell. *)
Definition on_page {A : Type} (m : M A) : Eff.t Shell Event A :=
  fun sh =>
    match m (page sh) with
    | (r, s', t) => (r, set_page s' sh, t)
    end.

Definition could_not_get_messages : string :=
  "Could not get messages, please ensure that the server is running.".

Section Mount.

Variable fetch_head : string -> FetchResult.
Variable api : Client.ApiClient.

(** The [try] block of the history load. *)
Definition history_try : M unit :=
  apiMessages <- await GetHistory (Client.getHistory api) ;;
  loaded <- flattenMessages apiMessages ;;
  modify (set_messages loaded) ;;
  (match findLast (fun m => truthy_opt (mood (oval m))) loaded with
   | Some lastMoodMessage =>
       match mood (oval lastMoodMessage) with
       | Some m => if truthy m then updateMood fetch_head m else ret tt
       | None => ret tt
       end
   | None => ret tt
   end) ;;
  tick.

(** The [async] function [onMount] starts to load the history. *)
Definition loadHistory : Eff.t Shell Event unit :=
  Eff.try_catch
    (on_page history_try)
    (fun err =>
       Eff.bind (Eff.emit (Console ("Failed to load history: " ++ err)))
         (fun _ => Eff.modify (set_connectionError could_not_get_messages))).

End Mount.

(* ===================================================================== *)
(** ** +page.svelte: the theme *)
(* ===================================================================== *)

Module Theme.

(** [lightMode], whether [document.documentElement] has the class
    [light-mode], and the [theme] key of [localStorage]. *)
Record t : Type := mk {
  lightMode : bool;
  light_class : bool;
  saved : option string
}.

End Theme.

(** [toggleLightMode]. *)
Definition toggleLightMode (t : Theme.t) : Theme.t :=
  let lightMode := negb (Theme.lightMode t) in
  if lightMode
  then {| Theme.lightMode := lightMode; Theme.light_class := true;
          Theme.saved := Some "light" |}
  else {| Theme.lightMode := lightMode; Theme.light_class := false;
          Theme.saved := Some "dark" |}.

(** The theme part of [onMount]. *)
Definition loadTheme (t : Theme.t) : Theme.t :=
  match Theme.saved t with
  | Some savedTheme =>
      if savedTheme =? "light"
      then {| Theme.lightMode := true; Theme.light_class := true;
              Theme.saved := Theme.saved t |}
      else t
  | None => t
  end.

(** The page opened again on the same [localStorage]: [lightMode] as the
    script initialises it, the document with or without the class as its
    markup has it, then [onMount]. *)
Definition reopen (class_in_markup : bool) (t : Theme.t) : Theme.t :=
  loadTheme {| Theme.lightMode := false; Theme.light_class := class_in_markup;
               Theme.saved := Theme.saved t |}.

(* ===================================================================== *)
(** ** +page.svelte: attachments *)
(* ===================================================================== *)

(** [s.split(sep)] for a separator that is one character out of a set: the
    pieces between the separators, at least one. *)
Fixpoint split_on (sep : ascii -> bool) (s : string) : list string :=
  match s with
  | EmptyString => [EmptyString]
  | String c rest =>
      if sep c then EmptyString :: split_on sep rest
      else
        match split_on sep rest with
        | piece :: pieces => String c piece :: pieces
        | [] => [String c EmptyString]
        end
  end.

(** The character class of [/[\\/]/]. *)
Definition is_path_separator (c : ascii) : bool :=
  (c =? "/")%char || (c =? "\")%char.

Definition is_dot (c : ascii) : bool := (c =? ".")%char.

(** [x || fallback] on strings. *)
Definition or_else (x fallback : string) : string :=
  if truthy x then x else fallback.

(** [filePath.split(/[\\/]/).pop() || 'image.png']; the array [split]
    returns is never empty, so the default of [last] is never produced. *)
Definition original_filename (filePath : string) : string :=
  or_else (last (split_on is_path_separator filePath) "") "image.png".

(** [originalFilename.split('.').pop() || 'png']. *)
Definition extension_of (originalFilename : string) : string :=
  or_else (last (split_on is_dot originalFilename) "") "png".

(** [`${timestamp}.${extension}`] for the file picked. *)
Definition cache_filename (timestamp : N) (filePath : string) : string :=
  render_number timestamp ++ "." ++ extension_of (original_filename filePath).

(** The native side and the clock, as the attachment functions see them:
    the file dialog, the three Tauri commands, [convertFileSrc],
    [Date.now()] and [JSON.stringify]. *)
Record Host : Type := mkHost {
  open_dialog : Promise (option string);
  read_file_as_base64 : string -> Promise string;
  save_image_to_cache : string -> string -> Promise unit;
  get_image_cache_path : string -> Promise string;
  convertFileSrc : string -> string;
  now : N;
  JSON_stringify : ImageData -> string
}.

(** [await p] for a call of the native side, which the trace does not
    record. *)
Definition settled {A : Type} (p : Promise A) : M A :=
  fun s =>
    match p with
    | Fulfilled a => (Returned a, s, [])
    | Rejected err => (Thrown err, s, [])
    end.

Section Attachments.

Variable host : Host.
Variable JSON_parse : string -> option ImageData.

(** [attachImage]. *)
Definition attachImage : M unit :=
  try_catch
    (filePath <- settled (open_dialog host) ;;
     match filePath with
     | Some path =>
         if truthy path
         then
           base64 <- settled (read_file_as_base64 host path) ;;
           let cached := cache_filename (now host) path in
           settled (save_image_to_cache host cached base64) ;;
           modify (set_attachedImage
                     (Some (JSON_stringify host
                              {| filename := cached; data := base64 |})))
         else ret tt
     | None => ret tt
     end)
    (fun err =>
       console ("Failed to pick image: " ++ err) ;;
       alert ("Failed to select image: " ++ err)).

(** [clearAttachment]. *)
Definition clearAttachment : M unit := modify (set_attachedImage None).

(** [getImageSrc]. *)
Definition getImageSrc (name : string) : M string :=
  try_catch
    (cachePath <- settled (get_image_cache_path host name) ;;
     ret (convertFileSrc host cachePath))
    (fun err =>
       console ("Failed to get image from cache: " ++ err) ;;
       ret "").

(** [getAttachmentPreview]. *)
Definition getAttachmentPreview : M string :=
  s <- get ;;
  match attachedImage s with
  | Some json =>
      if truthy json
      then
        try_catch
          (imageData <- parse JSON_parse json ;;
           getImageSrc (filename imageData))
          (fun _ => ret "")
      else ret ""
  | None => ret ""
  end.

End Attachments.

(* ===================================================================== *)
(** ** Vocabulary of the further properties *)
(* ===================================================================== *)

(** The asset of a mood with this extension answers [ok]. *)
Definition asset_exists (fetch_head : string -> FetchResult)
    (mood ext : string) : bool :=
  match fetch_head (avatar_url mood ext) with
  | FetchOk => true
  | FetchNotOk | FetchThrows => false
  end.

(** All the content segments of a list of server messages. *)
Definition segment_count (apiMessages : list ApiMessage) : nat :=
  list_sum (map (fun msg => length (Api.content_split msg)) apiMessages).

(** The text is made of white space only. *)
Definition blank (text : string) : Prop :=
  forall c, In c (list_ascii_of_string text) -> is_space c = true.

(** The mood of the last bubble that carries one. *)
Definition last_mood (bubbles : list Message) : option string :=
  fold_left
    (fun found b =>
       match mood b with
       | Some m => if truthy m then Some m else found
       | None => found
       end)
    bubbles None.

Definition summarization_conflict : string :=
  "Cannot send messages while summarization is in progress. Please wait.".

Definition is_set_interval (e : Event) : bool :=
  match e with
  | SetInterval _ => true
  | _ => false
  end.

(** The alert [send] shows for an error. *)
Definition send_alert_text (err : string) : string :=
  if includes err "503" || includes err "summarization"
  then summarization_conflict
  else "Error: " ++ err.

(** The state [send] is in after its [catch] block. *)
Definition rolled_back (snapshot : Snapshot) (s : State) : State :=
  let cut :=
    set_messages (firstn (messagesBeforeSend snapshot) (messages s)) s in
  if hadAttachment snapshot
  then set_attachedImage (attachmentData snapshot) cut
  else cut.

(** [toggleMenu] applied. *)
Definition menu_toggled (s : State) : State :=
  set_menuOpen (negb (menuOpen s)) s.

(* ===================================================================== *)
(** ** More sample services and pages *)
(* ===================================================================== *)

(** A page just opened, nothing typed. *)
Definition resting : State := initial.

(** A service that cannot be reached. *)
Definition offline_service : Client.ApiClient :=
  {| Client.getHistory := Rejected "TypeError: Failed to fetch";
     Client.startSummarization := Rejected "TypeError: Failed to fetch";
     Client.getSummarizationStatus := Rejected "TypeError: Failed to fetch";
     Client.shouldSendProactiveMessage := Rejected "TypeError: Failed to fetch";
     Client.sendProactiveMessage := Rejected "TypeError: Failed to fetch";
     Client.sendUnifiedMessage := fun text images =>
       Rejected "TypeError: Failed to fetch";
     Client.triggerWebSearch := Rejected "TypeError: Failed to fetch";
     Client.triggerReminisce := Rejected "TypeError: Failed to fetch" |}.


(** A serializer that knows the picture of the cat. *)
Definition stringify_cat (imageData : ImageData) : string :=
  if (filename imageData =? filename cat_image)
     && (data imageData =? data cat_image)
  then cat_json
  else "null".

(** The native side while the user picks the picture of the cat. *)
Definition picking_cat : Host :=
  {| open_dialog := Fulfilled (Some "/home/me/Pictures/cat.png");
     read_file_as_base64 := fun path => Fulfilled "iVBORw0KGgo=";
     save_image_to_cache := fun name base64 => Fulfilled tt;
     get_image_cache_path := fun name => Fulfilled ("/cache/" ++ name)%string;
     convertFileSrc := fun path => ("asset://localhost" ++ path)%string;
     now := 1700000000000;
     JSON_stringify := stringify_cat |}.

(* ===================================================================== *)
(** ** Vocabulary of the properties of the client *)
(* ===================================================================== *)

(** The request [loadConfig] makes. *)
Definition config_request : Http.Request :=
  {| Http.url := "/config.json"; Http.method := None;
     Http.headers := []; Http.body := None |}.

(** The request [request(endpoint, options)] makes with these fields. *)
Definition request_of (c : ApiClient.Config) (endpoint : string)
    (options : Http.RequestInit) : Http.Request :=
  {| Http.url := ApiClient.serverUrl c ++ endpoint;
     Http.method := Http.init_method options;
     Http.headers :=
       spread [("Authorization", ("Bearer " ++ ApiClient.apiKey c)%string)]
              (Http.init_headers options);
     Http.body := Http.init_body options |}.

(** The text of the error [request] throws for a response that is not
    [ok]: [String(new Error(`API Error ${status}: ${error}`))]. *)
Definition api_error (response : Http.Response) : string :=
  "Error: API Error " ++ render_number (Http.status response)
    ++ ": " ++ Http.text response.

(** A call of the client that made one request, to a path under [/api/] of
    the server, with the key as bearer credential, and left the fields of
    the client alone. *)
Definition authenticated {A : Type} (c : ApiClient.Config)
    (r : Outcome A * ApiClient.Config * list ApiClient.Wire) : Prop :=
  Eff.final r = c
  /\ exists request path,
       Eff.trace r = [ApiClient.Sent request]
       /\ Http.url request = (ApiClient.serverUrl c ++ "/api/" ++ path)%string
       /\ lookup "Authorization" (Http.headers request)
            = Some ("Bearer " ++ ApiClient.apiKey c)%string.

(** A network on which every request is answered [503], the body telling
    why. *)
Definition summarizing_network : ApiClient.Network :=
  {| ApiClient.fetch := fun request =>
       Fulfilled {| Http.ok := false; Http.status := 503;
                    Http.text := "summarization in progress" |};
     ApiClient.json_config := fun text => Rejected "SyntaxError";
     ApiClient.json_messages := fun text => Rejected "SyntaxError";
     ApiClient.json_summarize := fun text => Rejected "SyntaxError";
     ApiClient.json_should_send := fun text => Rejected "SyntaxError";
     ApiClient.stringify_message := fun text images => "{}" |}.

(** A network whose server has too little history to reminisce. *)
Definition short_history_network : ApiClient.Network :=
  {| ApiClient.fetch := fun request =>
       Fulfilled {| Http.ok := false; Http.status := 400;
                    Http.text := "Not enough messages in history" |};
     ApiClient.json_config := fun text => Rejected "SyntaxError";
     ApiClient.json_messages := fun text => Rejected "SyntaxError";
     ApiClient.json_summarize := fun text => Rejected "SyntaxError";
     ApiClient.json_should_send := fun text => Rejected "SyntaxError";
     ApiClient.stringify_message := fun text images => "{}" |}.

(** Options that bring a credential of their own. *)
Definition own_credential : Http.RequestInit :=
  {| Http.init_method := Some "POST";
     Http.init_headers := [("Authorization", "Basic abc")];
     Http.init_body := None |}.

(* ===================================================================== *)
(** ** Flattening *)
(* ===================================================================== *)

Lemma alloc_values (next : nat) (vals : list Message) :
  map oval (alloc next vals) = vals.
Proof.
  revert next. induction vals as [| v rest IH]; intros next; simpl.
  - reflexivity.
  - now rewrite IH.
Qed.

Lemma alloc_refs (next : nat) (vals : list Message) :
  map oref (alloc next vals) = seq next (length vals).
Proof.
  revert next. induction vals as [| v rest IH]; intros next; simpl.
  - reflexivity.
  - now rewrite IH.
Qed.

Lemma alloc_length (next : nat) (vals : list Message) :
  length (alloc next vals) = length vals.
Proof.
  rewrite <- (length_map oval). now rewrite alloc_values.
Qed.

Lemma flattenMessages_returns (apiMessages : list ApiMessage) (s : State) :
  exists objs,
    flattenMessages apiMessages s
      = (Returned objs, set_next_ref (next_ref s + length objs) s, [])
    /\ map oval objs = flattenMessages_values apiMessages
    /\ map oref objs = seq (next_ref s) (length objs).
Proof.
  exists (alloc (next_ref s) (flattenMessages_values apiMessages)).
  unfold flattenMessages. rewrite alloc_length, alloc_values, alloc_refs.
  repeat split.
Qed.

Lemma flattenMessage_image (msg : ApiMessage) :
  carries_image msg -> (2 <= length (Api.content_split msg))%nat ->
  flattenMessage msg = [bubble msg (nth 1 (Api.content_split msg) "")].
Proof.
  unfold carries_image, flattenMessage. intros Himg Hlen.
  rewrite Himg. apply Nat.leb_le in Hlen. rewrite Hlen. reflexivity.
Qed.

Lemma flattenMessage_plain (msg : ApiMessage) :
  ~ (carries_image msg /\ (2 <= length (Api.content_split msg))%nat) ->
  flattenMessage msg = map (bubble msg) (Api.content_split msg).
Proof.
  unfold carries_image, flattenMessage. intros Hno.
  destruct (2 <=? length (Api.content_split msg))%nat eqn:Hlen;
    [| now rewrite andb_false_r].
  destruct (truthy_opt (Api.image_path msg)) eqn:Himg; [| reflexivity].
  exfalso. apply Hno. split; [reflexivity |]. now apply Nat.leb_le.
Qed.

(** C3.  Flattening one server message.  When it carries an image reference
    and has at least two content segments, exactly one bubble comes out: its
    content is the segment at index 1 and it has the message's role, mood and
    image reference.  Otherwise one bubble comes out per segment, in segment
    order, each with the message's role, mood and image reference.  And
    [flattenMessages] on a list of server messages returns, in list order,
    objects whose values are these bubbles. *)
Theorem flattenMessage_rule (msg : ApiMessage) :
  (carries_image msg /\ (2 <= length (Api.content_split msg))%nat ->
     exists second,
       nth_error (Api.content_split msg) 1 = Some second
       /\ flattenMessage msg =
            [ {| role := Api.role msg; content := second;
                 mood := Api.mood msg; image_path := Api.image_path msg |} ])
  /\ (~ (carries_image msg /\ (2 <= length (Api.content_split msg))%nat) ->
        length (flattenMessage msg) = length (Api.content_split msg)
        /\ forall i segment,
             nth_error (Api.content_split msg) i = Some segment ->
             nth_error (flattenMessage msg) i =
               Some {| role := Api.role msg; content := segment;
                       mood := Api.mood msg;
                       image_path := Api.image_path msg |})
  /\ (forall before after s,
        exists objs s',
          flattenMessages (before ++ msg :: after) s = (Returned objs, s', [])
          /\ map oval objs =
               flattenMessages_values before ++ flattenMessage msg
                 ++ flattenMessages_values after).
Proof.
  split; [| split].
  - intros [Himg Hlen].
    rewrite (flattenMessage_image msg Himg Hlen).
    destruct (Api.content_split msg) as [| first [| second rest]];
      simpl in Hlen; try lia.
    exists second. split; reflexivity.
  - intros Hno. rewrite (flattenMessage_plain msg Hno). split.
    + apply length_map.
    + intros i segment Hi. rewrite nth_error_map, Hi. reflexivity.
  - intros before after s.
    destruct (flattenMessages_returns (before ++ msg :: after) s)
      as (objs & Hrun & Hvals & _).
    exists objs, (set_next_ref (next_ref s + length objs) s).
    split; [exact Hrun |].
    rewrite Hvals. unfold flattenMessages_values.
    rewrite flat_map_app. reflexivity.
Qed.

Lemma flattenMessage_rule_witness :
  (carries_image caption_message
   /\ (2 <= length (Api.content_split caption_message))%nat)
  /\ exists second,
       nth_error (Api.content_split caption_message) 1 = Some second
       /\ flattenMessage caption_message =
            [ {| role := "user"; content := second; mood := Some "happy";
                 image_path := Some "1700000000000.png" |} ].
Proof.
  assert (Hcaption : carries_image caption_message
                     /\ (2 <= length (Api.content_split caption_message))%nat)
    by (split; [reflexivity | simpl; lia]).
  split; [exact Hcaption |].
  exact (proj1 (flattenMessage_rule caption_message) Hcaption).
Defined.

(** C10.  A server message with no content segment flattens to no bubble,
    also when it carries an image reference, and a list of server messages
    flattens to the same bubbles with or without it. *)
Theorem flattenMessage_no_segments (msg : ApiMessage) :
  Api.content_split msg = [] ->
  flattenMessage msg = []
  /\ forall before after,
       flattenMessages_values (before ++ msg :: after)
         = flattenMessages_values (before ++ after).
Proof.
  intros Hempty.
  assert (Hnil : flattenMessage msg = []).
  { unfold flattenMessage. rewrite Hempty. simpl.
    rewrite andb_false_r. reflexivity. }
  split; [exact Hnil |].
  intros before after. unfold flattenMessages_values.
  rewrite !flat_map_app. simpl. rewrite Hnil. reflexivity.
Qed.

Lemma flattenMessage_no_segments_witness :
  Api.content_split image_without_text = []
  /\ flattenMessage image_without_text = []
  /\ forall before after,
       flattenMessages_values (before ++ image_without_text :: after)
         = flattenMessages_values (before ++ after).
Proof.
  split; [reflexivity |].
  apply (flattenMessage_no_segments image_without_text). reflexivity.
Defined.

(* ===================================================================== *)
(** ** Mood resolution *)
(* ===================================================================== *)

Section Resolver.

Variable fetch_head : string -> FetchResult.

Lemma probe_formats_found (mood : string) (formats : list string)
    (format : string) (probes : list Event) :
  probe_formats fetch_head mood formats = (Some format, probes) ->
  In format formats
  /\ fetch_head (avatar_url mood format) = FetchOk
  /\ probes <> []
  /\ exists rest,
       map (fun ext => Fetch (avatar_url mood ext)) formats = probes ++ rest.
Proof.
  revert probes. induction formats as [| f rest IH]; intros probes; simpl.
  - discriminate.
  - destruct (fetch_head (avatar_url mood f)) eqn:Hf.
    + intros [= <- <-]. repeat split; auto; try discriminate.
      now exists (map (fun ext => Fetch (avatar_url mood ext)) rest).
    + destruct (probe_formats fetch_head mood rest) as [found more].
      intros [= -> <-]. destruct (IH more eq_refl) as (Hin & Hok & _ & tl & Htl).
      repeat split; auto; try discriminate.
      exists tl. simpl. now rewrite Htl.
    + destruct (probe_formats fetch_head mood rest) as [found more].
      intros [= -> <-]. destruct (IH more eq_refl) as (Hin & Hok & _ & tl & Htl).
      repeat split; auto; try discriminate.
      exists tl. simpl. now rewrite Htl.
Qed.

Lemma probe_formats_none (mood : string) (formats : list string)
    (probes : list Event) :
  probe_formats fetch_head mood formats = (None, probes) ->
  probes = map (fun ext => Fetch (avatar_url mood ext)) formats
  /\ forall format, In format formats ->
       fetch_head (avatar_url mood format) <> FetchOk.
Proof.
  revert probes. induction formats as [| f rest IH]; intros probes; simpl.
  - intros [= <-]. split; [reflexivity | intros ? []].
  - destruct (fetch_head (avatar_url mood f)) eqn:Hf; [discriminate | |].
    all: destruct (probe_formats fetch_head mood rest) as [found more].
    all: intros [= -> <-]; destruct (IH more eq_refl) as [-> Hnone].
    all: split; [reflexivity |].
    all: intros format [<- | Hin]; [congruence | now apply Hnone].
Qed.

Lemma probe_formats_all_missing (mood : string) (formats : list string) :
  (forall format, In format formats ->
     fetch_head (avatar_url mood format) <> FetchOk) ->
  probe_formats fetch_head mood formats
    = (None, map (fun ext => Fetch (avatar_url mood ext)) formats).
Proof.
  induction formats as [| f rest IH]; intros Hnone; simpl.
  - reflexivity.
  - rewrite IH by (intros; apply Hnone; now right).
    destruct (fetch_head (avatar_url mood f)) eqn:Hf; try reflexivity.
    exfalso. apply (Hnone f); [now left | exact Hf].
Qed.

(** The body of [get_extension], as the script writes it. *)
Lemma get_extension_body (m : string) :
  get_extension fetch_head m =
    match fetch_head (avatar_url m "mp4") with
    | FetchOk => (Avatar.mk m "mp4", [Fetch (avatar_url m "mp4")])
    | FetchNotOk | FetchThrows =>
        match probe_formats fetch_head m imageFormats with
        | (Some format, probes) =>
            (Avatar.mk m format, Fetch (avatar_url m "mp4") :: probes)
        | (None, probes) =>
            if string_dec m "normal"
            then (Avatar.mk "normal" "png",
                  Fetch (avatar_url m "mp4") :: probes)
            else
              let (result, more) := get_extension fetch_head "normal" in
              (result, Fetch (avatar_url m "mp4") :: probes ++ more)
        end
    end.
Proof.
  rewrite get_extension_equation_1 at 1.
  destruct (fetch_head (avatar_url m "mp4")); [reflexivity | |].
  - unfold get_extension_unfold_clause_1.
    destruct (probe_formats fetch_head m imageFormats) as [[format |] probes];
      [reflexivity |].
    unfold get_extension_unfold_clause_1_clause_2.
    destruct (string_dec m "normal"); reflexivity.
  - unfold get_extension_unfold_clause_1.
    destruct (probe_formats fetch_head m imageFormats) as [[format |] probes];
      [reflexivity |].
    unfold get_extension_unfold_clause_1_clause_2_1.
    destruct (string_dec m "normal"); reflexivity.
Qed.

Lemma candidates_cons (mood : string) :
  candidates mood =
    Fetch (avatar_url mood "mp4")
      :: map (fun ext => Fetch (avatar_url mood ext)) imageFormats.
Proof. reflexivity. Qed.

(** A call that does not reach the recursive call stays within one
    round. *)
Lemma first_round (mood : string) :
  match fetch_head (avatar_url mood "mp4") with
  | FetchOk =>
      one_round mood (Avatar.mk mood "mp4") [Fetch (avatar_url mood "mp4")]
  | FetchNotOk | FetchThrows =>
      match probe_formats fetch_head mood imageFormats with
      | (Some format, probes) =>
          one_round mood (Avatar.mk mood format)
                    (Fetch (avatar_url mood "mp4") :: probes)
      | (None, probes) =>
          Fetch (avatar_url mood "mp4") :: probes = candidates mood
      end
  end.
Proof.
  assert (Hrest : forall format probes,
    probe_formats fetch_head mood imageFormats = (Some format, probes) ->
    one_round mood (Avatar.mk mood format)
              (Fetch (avatar_url mood "mp4") :: probes)).
  { intros format probes Hprobe. apply probe_formats_found in Hprobe.
    destruct Hprobe as (Hin & _ & _ & rest & Hrest).
    split; [now right |]. split; [discriminate |].
    exists rest. rewrite candidates_cons, Hrest. reflexivity. }
  assert (Hall : forall probes,
    probe_formats fetch_head mood imageFormats = (None, probes) ->
    Fetch (avatar_url mood "mp4") :: probes = candidates mood).
  { intros probes Hprobe. apply probe_formats_none in Hprobe.
    destruct Hprobe as [-> _]. reflexivity. }
  destruct (fetch_head (avatar_url mood "mp4")).
  - split; [now left |]. split; [discriminate |].
    rewrite candidates_cons. now eexists.
  - destruct (probe_formats fetch_head mood imageFormats) as [[format |] probes];
      auto.
  - destruct (probe_formats fetch_head mood imageFormats) as [[format |] probes];
      auto.
Qed.

Lemma default_round (mood : string) :
  one_round mood (Avatar.mk "normal" "png") (candidates mood).
Proof.
  split; [right; now left |]. split; [discriminate |].
  exists []. now rewrite app_nil_r.
Qed.

Lemma get_extension_normal :
  one_round "normal" (fst (get_extension fetch_head "normal"))
            (snd (get_extension fetch_head "normal")).
Proof.
  rewrite get_extension_body. pose proof (first_round "normal") as Hfirst.
  destruct (fetch_head (avatar_url "normal" "mp4")); [exact Hfirst | |].
  all: destruct (probe_formats fetch_head "normal" imageFormats)
         as [[format |] probes]; [exact Hfirst |].
  all: destruct (string_dec "normal" "normal") as [_ | Hne];
         [| now elim Hne].
  all: simpl; rewrite Hfirst; apply default_round.
Qed.

Lemma get_extension_rounds (mood : string) :
  at_most_two_rounds mood (fst (get_extension fetch_head mood))
                     (snd (get_extension fetch_head mood)).
Proof.
  rewrite get_extension_body.
  pose proof (first_round mood) as Hfirst.
  pose proof get_extension_normal as Hnormal.
  destruct (fetch_head (avatar_url mood "mp4")); [now left | |].
  all: destruct (probe_formats fetch_head mood imageFormats)
         as [[format |] probes]; [now left |].
  all: destruct (string_dec mood "normal") as [Heq | Hne];
         [left; simpl; rewrite Hfirst; apply default_round |].
  all: destruct (get_extension fetch_head "normal") as [result more].
  all: right; split; [exact Hne |]; exists more; cbn [fst snd] in *.
  all: split; [now rewrite <- Hfirst | exact Hnormal].
Qed.

(** [get_extension] does nothing but probe. *)
Lemma get_extension_only_probes (mood : string) (e : Event) :
  In e (snd (get_extension fetch_head mood)) -> exists url, e = Fetch url.
Proof.
  assert (Hcand : forall m, In e (candidates m) -> exists url, e = Fetch url).
  { intros m Hin. apply in_map_iff in Hin. destruct Hin as (ext & <- & _).
    now eexists. }
  assert (Hone : forall m r p, one_round m r p -> In e p ->
                               exists url, e = Fetch url).
  { intros m r p (_ & _ & rest & Hrest) Hin. apply (Hcand m).
    rewrite Hrest. apply in_or_app. now left. }
  intros Hin.
  destruct (get_extension_rounds mood) as [H1 | (_ & second & Heq & H2)].
  - now apply (Hone _ _ _ H1).
  - rewrite Heq in Hin. apply in_app_or in Hin. destruct Hin as [Hin | Hin].
    + now apply (Hcand mood).
    + now apply (Hone _ _ _ H2).
Qed.

Lemma get_extension_no_asset (mood : string) :
  no_asset fetch_head mood -> no_asset fetch_head "normal" ->
  fst (get_extension fetch_head mood) = Avatar.mk "normal" "png".
Proof.
  assert (Hone : forall m, no_asset fetch_head m ->
    fetch_head (avatar_url m "mp4") <> FetchOk
    /\ probe_formats fetch_head m imageFormats
         = (None, map (fun ext => Fetch (avatar_url m ext)) imageFormats)).
  { intros m Hm. split; [apply Hm; now left |].
    apply probe_formats_all_missing. intros format Hin. apply Hm. now right. }
  assert (Hnormal : no_asset fetch_head "normal" ->
    fst (get_extension fetch_head "normal") = Avatar.mk "normal" "png").
  { intros Hn. destruct (Hone "normal" Hn) as [Hmp4 Hprobe].
    rewrite get_extension_body, Hprobe.
    destruct (string_dec "normal" "normal") as [_ | Hne]; [| now elim Hne].
    destruct (fetch_head (avatar_url "normal" "mp4")); [now elim Hmp4 | |];
      reflexivity. }
  intros Hmood Hn. specialize (Hnormal Hn).
  destruct (Hone mood Hmood) as [Hmp4 Hprobe].
  rewrite get_extension_body, Hprobe.
  destruct (get_extension fetch_head "normal") as [result more].
  simpl in Hnormal.
  destruct (fetch_head (avatar_url mood "mp4")); [now elim Hmp4 | |];
    destruct (string_dec mood "normal"); simpl; auto.
Qed.

End Resolver.

(** C4.  [get_extension] is a total function of the mood and of the answers
    of the asset probes.  It makes at most two rounds of probes, one for the
    requested mood and then, only after that one is exhausted, one for
    ["normal"]; the probes of a round are an initial segment of
    [mp4, png, jpg, jpeg, gif, webp] in this order, so at most twelve probes
    are made.  The extension it returns is one of these six, and when no
    asset exists for the requested mood nor for ["normal"] it returns
    [{ mood: "normal", extension: "png" }]. *)
Theorem get_extension_resolves (fetch_head : string -> FetchResult)
    (mood : string) :
  let result := fst (get_extension fetch_head mood) in
  let probes := snd (get_extension fetch_head mood) in
  In (Avatar.extension result) ["mp4"; "png"; "jpg"; "jpeg"; "gif"; "webp"]
  /\ at_most_two_rounds mood result probes
  /\ (length probes <= 12)%nat
  /\ (no_asset fetch_head mood -> no_asset fetch_head "normal" ->
      result = Avatar.mk "normal" "png").
Proof.
  cbv zeta.
  pose proof (get_extension_rounds fetch_head mood) as Hrounds.
  assert (Hlen : forall m r p, one_round m r p -> (length p <= 6)%nat).
  { intros m r p (_ & _ & rest & Hrest).
    apply (f_equal (@length Event)) in Hrest.
    rewrite length_app in Hrest. simpl in Hrest. lia. }
  split; [| split; [exact Hrounds | split]].
  - destruct Hrounds as [(Hin & _) | (_ & second & _ & Hin & _)]; exact Hin.
  - destruct Hrounds as [Hone | (_ & second & -> & Hone)].
    + apply Hlen in Hone. lia.
    + apply Hlen in Hone. rewrite length_app. simpl. lia.
  - apply get_extension_no_asset.
Qed.

Lemma get_extension_resolves_witness :
  (no_asset no_assets_at_all "sleepy" /\ no_asset no_assets_at_all "normal")
  /\ fst (get_extension no_assets_at_all "sleepy") = Avatar.mk "normal" "png".
Proof.
  assert (Hnone : forall mood, no_asset no_assets_at_all mood)
    by (intros mood ext _; discriminate).
  split; [split; apply Hnone |].
  apply (proj2 (proj2 (proj2 (get_extension_resolves no_assets_at_all "sleepy"))));
    apply Hnone.
Defined.

(* ===================================================================== *)
(** ** Running the monad *)
(* ===================================================================== *)

Lemma bind_returned {A B : Type} (m : M A) (k : A -> M B)
    (s s1 : State) (a : A) (t1 : list Event) :
  m s = (Returned a, s1, t1) ->
  bind m k s =
    (outcome (k a s1), final (k a s1), t1 ++ trace (k a s1)).
Proof.
  intros Hm. unfold bind, outcome, final, trace. rewrite Hm.
  destruct (k a s1) as [[r s2] t2]. reflexivity.
Qed.

Lemma bind_thrown {A B : Type} (m : M A) (k : A -> M B)
    (s s1 : State) (err : string) (t1 : list Event) :
  m s = (Thrown err, s1, t1) ->
  bind m k s = (Thrown err, s1, t1).
Proof.
  intros Hm. unfold bind. rewrite Hm. reflexivity.
Qed.

Lemma final_bind {A B : Type} (m : M A) (k : A -> M B)
    (s s1 : State) (a : A) (t1 : list Event) :
  m s = (Returned a, s1, t1) ->
  final (bind m k s) = final (k a s1)
  /\ outcome (bind m k s) = outcome (k a s1)
  /\ trace (bind m k s) = t1 ++ trace (k a s1).
Proof.
  intros Hm. rewrite (bind_returned m k s s1 a t1 Hm). auto.
Qed.

Lemma final_after {A B : Type} (m : M A) (k : A -> M B)
    (s s1 : State) (a : A) (t1 : list Event) :
  m s = (Returned a, s1, t1) -> final (bind m k s) = final (k a s1).
Proof. intros Hm. apply (final_bind m k s s1 a t1 Hm). Qed.

(** Steps over the first statement of a sequence when it returns. *)
Ltac step_final := erewrite final_after by reflexivity; cbv beta.

(* ===================================================================== *)
(** ** The paced reveal *)
(* ===================================================================== *)

Section Reveal.

Variable fetch_head : string -> FetchResult.

Lemma apply_mood_frame (msg : Obj) (s : State) :
  messages (apply_mood fetch_head msg s) = messages s
  /\ puriraWriting (apply_mood fetch_head msg s) = puriraWriting s
  /\ summarizing (apply_mood fetch_head msg s) = summarizing s
  /\ attachedImage (apply_mood fetch_head msg s) = attachedImage s.
Proof.
  unfold apply_mood. destruct (mood (oval msg)) as [m |]; auto.
  destruct (truthy m); auto.
Qed.

Lemma reveal_state_frame (batch : list Obj) (s : State) :
  messages (reveal_state fetch_head batch s) = messages s ++ batch
  /\ puriraWriting (reveal_state fetch_head batch s) = puriraWriting s
  /\ summarizing (reveal_state fetch_head batch s) = summarizing s
  /\ attachedImage (reveal_state fetch_head batch s) = attachedImage s.
Proof.
  unfold reveal_state. revert s.
  induction batch as [| msg rest IH]; intros s; simpl.
  - rewrite app_nil_r. auto.
  - destruct (IH (apply_mood fetch_head msg (set_messages (messages s ++ [msg]) s)))
      as (Hm & Hp & Hs & Ha).
    destruct (apply_mood_frame msg (set_messages (messages s ++ [msg]) s))
      as (Hm' & Hp' & Hs' & Ha').
    rewrite Hm, Hp, Hs, Ha, Hm', Hp', Hs', Ha'. simpl.
    rewrite <- app_assoc. auto.
Qed.

(** [indexOf] finds an object of an array without repeated objects at its
    own position. *)
Lemma indexOf_position (shown rest : list Obj) (msg : Obj) :
  NoDup (map oref (shown ++ msg :: rest)) ->
  indexOf (shown ++ msg :: rest) msg = Z.of_nat (length shown).
Proof.
  induction shown as [| x shown IH]; simpl; intros Hnodup.
  - now rewrite Nat.eqb_refl.
  - inversion Hnodup as [| ? ? Hnotin Hrest]; subst.
    destruct (Nat.eqb_spec (oref x) (oref msg)) as [Heq | _].
    + exfalso. apply Hnotin. rewrite Heq, map_app. apply in_or_app.
      right. now left.
    + rewrite (IH Hrest).
      destruct (Z.ltb_spec (Z.of_nat (length shown)) 0); lia.
Qed.

Lemma updateMood_runs (m : string) (s : State) :
  updateMood fetch_head m s =
    (Returned tt,
     set_avatar (Avatar.mood (fst (get_extension fetch_head m)))
                (Avatar.extension (fst (get_extension fetch_head m))) s,
     snd (get_extension fetch_head m)
       ++ [SetMood (Avatar.mood (fst (get_extension fetch_head m)))
                   (Avatar.extension (fst (get_extension fetch_head m)))]).
Proof.
  unfold updateMood. destruct (get_extension fetch_head m). reflexivity.
Qed.

(** One turn of the loop, followed by whatever comes next. *)
Lemma reveal_step_runs (delay : Z) (msg : Obj) (more : bool)
    (next : M unit) (s : State) :
  (push msg ;;
   (match mood (oval msg) with
    | Some m => if truthy m then updateMood fetch_head m else ret tt
    | None => ret tt
    end) ;;
   tick ;;
   (if more then sleep delay else ret tt) ;;
   next) s
  = (outcome (next (apply_mood fetch_head msg (set_messages (messages s ++ [msg]) s))),
     final (next (apply_mood fetch_head msg (set_messages (messages s ++ [msg]) s))),
     Push msg :: mood_events fetch_head msg ++ Tick ::
       (if more then [Sleep delay] else [])
       ++ trace (next (apply_mood fetch_head msg (set_messages (messages s ++ [msg]) s)))).
Proof.
  unfold apply_mood, mood_events, bind, push, tick, sleep, emit.
  destruct (mood (oval msg)) as [m |];
    [destruct (truthy m); [rewrite updateMood_runs |] |].
  all: destruct more; unfold ret; cbn [app].
  all: match goal with
       | |- context [trace (?k ?st)] => destruct (k st) as [[r s'] t]
       end.
  all: unfold outcome, final, trace; cbn [fst snd app].
  all: rewrite <- ?app_assoc; reflexivity.
Qed.

(** The loop of [displayResponseMessages], resumed after [shown]. *)
Lemma display_from_runs (delay : Z) (left_to_show shown : list Obj)
    (s : State) :
  NoDup (map oref (shown ++ left_to_show)) ->
  display_from fetch_head (shown ++ left_to_show) delay left_to_show s =
    (Returned tt, reveal_state fetch_head left_to_show s, reveal_spec fetch_head delay left_to_show).
Proof.
  revert shown s.
  induction left_to_show as [| msg rest IH]; intros shown s Hnodup.
  - reflexivity.
  - pose proof (indexOf_position shown rest msg Hnodup) as Hindex.
    assert (Hnext : forall s',
      display_from fetch_head (shown ++ msg :: rest) delay rest s'
      = (Returned tt, reveal_state fetch_head rest s', reveal_spec fetch_head delay rest)).
    { intros s'.
      replace (shown ++ msg :: rest) with ((shown ++ [msg]) ++ rest)
        by (now rewrite <- app_assoc).
      apply IH. now rewrite <- app_assoc. }
    assert (Hlast :
      (indexOf (shown ++ msg :: rest) msg
       <? Z.of_nat (length (shown ++ msg :: rest)) - 1)%Z
      = match rest with [] => false | _ :: _ => true end).
    { rewrite Hindex, length_app.
      destruct rest; cbn [length]; [apply Z.ltb_ge | apply Z.ltb_lt]; lia. }
    cbn [display_from]. rewrite Hlast, reveal_step_runs, Hnext.
    unfold outcome, final, trace. cbn [fst snd].
    destruct rest; reflexivity.
Qed.

End Reveal.

Lemma filter_none {A : Type} (f : A -> bool) (l : list A) :
  (forall x, In x l -> f x = false) -> filter f l = [].
Proof.
  induction l as [| x l IH]; intros Hall; simpl.
  - reflexivity.
  - rewrite (Hall x) by now left. apply IH. intros y Hy. apply Hall. now right.
Qed.

Lemma mood_events_no_sleep (fetch_head : string -> FetchResult) (msg : Obj) :
  filter is_sleep (mood_events fetch_head msg) = [].
Proof.
  apply filter_none. intros e Hin. unfold mood_events in Hin.
  destruct (mood (oval msg)) as [m |]; [| contradiction].
  destruct (truthy m); [| contradiction].
  apply in_app_or in Hin. destruct Hin as [Hin | [<- | []]]; [| reflexivity].
  apply get_extension_only_probes in Hin. destruct Hin as [url ->].
  reflexivity.
Qed.

Lemma reveal_spec_sleeps (fetch_head : string -> FetchResult) (delay : Z)
    (batch : list Obj) :
  length (filter is_sleep (reveal_spec fetch_head delay batch))
    = pred (length batch).
Proof.
  induction batch as [| msg rest IH]; [reflexivity |].
  cbn [reveal_spec]. cbn [filter is_sleep].
  rewrite filter_app, mood_events_no_sleep. cbn [app filter is_sleep].
  destruct rest as [| next rest']; [reflexivity |].
  cbn [filter is_sleep length]. rewrite IH. reflexivity.
Qed.

Lemma reveal_spec_ends_with_tick (fetch_head : string -> FetchResult)
    (delay : Z) (batch : list Obj) :
  batch = []
  \/ exists front, reveal_spec fetch_head delay batch = front ++ [Tick].
Proof.
  induction batch as [| msg rest IH]; [now left |]. right.
  cbn [reveal_spec]. destruct rest as [| next rest'].
  - exists (Push msg :: mood_events fetch_head msg).
    cbn [app]. reflexivity.
  - destruct IH as [Hnil | [front Hfront]]; [discriminate |].
    rewrite Hfront.
    exists (Push msg :: mood_events fetch_head msg
              ++ Tick :: Sleep delay :: front).
    cbn [app]. rewrite <- app_assoc. reflexivity.
Qed.

(** [displayResponseMessages] on an array without repeated objects. *)
Lemma displayResponseMessages_runs (fetch_head : string -> FetchResult)
    (batch : list Obj) (delay : Z) (s : State) :
  NoDup (map oref batch) ->
  displayResponseMessages fetch_head batch delay s =
    (Returned tt, reveal_state fetch_head batch s,
     reveal_spec fetch_head delay batch).
Proof.
  intros Hnodup. unfold displayResponseMessages.
  apply (display_from_runs fetch_head delay batch [] s Hnodup).
Qed.

(** The objects [flattenMessages] returns are fresh, hence distinct. *)
Lemma flattenMessages_fresh (apiMessages : list ApiMessage)
    (s s1 : State) (batch : list Obj) (t : list Event) :
  flattenMessages apiMessages s = (Returned batch, s1, t) ->
  NoDup (map oref batch)
  /\ map oval batch = flattenMessages_values apiMessages.
Proof.
  destruct (flattenMessages_returns apiMessages s) as (objs & Hrun & Hvals & Hrefs).
  rewrite Hrun. intros [= <- _ _]. split; [| exact Hvals].
  rewrite Hrefs. apply seq_NoDup.
Qed.

(** C7.  The reveal of a batch of flattened response messages.  The call
    returns in the state [reveal_state]: the timeline is the former one
    followed by the batch in input order, and the presentation mood has been
    resolved and updated for each message that carries a mood, in turn.  The
    events are those of [reveal_spec]: for each message its append, then the
    probes of the mood resolver and the mood update when it carries a mood,
    then the yield to the rendering loop, then one suspension of the delay
    when another message follows.  Hence a batch of [n] messages has [n - 1]
    suspensions, and the trace of a non-empty batch ends with the yield of
    its last message, not with a suspension. *)
Theorem displayResponseMessages_paced (fetch_head : string -> FetchResult)
    (apiMessages : list ApiMessage) (delay : Z)
    (s0 s1 s : State) (batch : list Obj) (t : list Event) :
  flattenMessages apiMessages s0 = (Returned batch, s1, t) ->
  let r := displayResponseMessages fetch_head batch delay s in
  outcome r = Returned tt
  /\ final r = reveal_state fetch_head batch s
  /\ messages (final r) = messages s ++ batch
  /\ trace r = reveal_spec fetch_head delay batch
  /\ length (filter is_sleep (trace r)) = pred (length batch)
  /\ (batch = [] \/ exists front, trace r = front ++ [Tick]).
Proof.
  intros Hflat. apply flattenMessages_fresh in Hflat. destruct Hflat as [Hnodup _].
  cbv zeta. rewrite (displayResponseMessages_runs fetch_head batch delay s Hnodup).
  unfold outcome, final, trace. cbn [fst snd].
  split; [reflexivity |]. split; [reflexivity |].
  split; [apply reveal_state_frame |].
  split; [reflexivity |]. split; [apply reveal_spec_sleeps |].
  apply reveal_spec_ends_with_tick.
Qed.

Lemma displayResponseMessages_paced_witness :
  flattenMessages two_alike initial
    = (Returned two_alike_batch, set_next_ref 2 initial, [])
  /\ (let r := displayResponseMessages no_assets_at_all two_alike_batch 1000
                                       initial in
      outcome r = Returned tt
      /\ final r = reveal_state no_assets_at_all two_alike_batch initial
      /\ messages (final r) = messages initial ++ two_alike_batch
      /\ trace r = reveal_spec no_assets_at_all 1000 two_alike_batch
      /\ length (filter is_sleep (trace r)) = pred (length two_alike_batch)
      /\ (two_alike_batch = [] \/ exists front, trace r = front ++ [Tick])).
Proof.
  split; [reflexivity |].
  exact (displayResponseMessages_paced no_assets_at_all two_alike 1000
           initial (set_next_ref 2 initial) initial two_alike_batch []
           eq_refl).
Defined.

(* ===================================================================== *)
(** ** Responses: flatten, then reveal *)
(* ===================================================================== *)

Section Handlers.

Variable fetch_head : string -> FetchResult.
Variable JSON_parse : string -> option ImageData.
Variable api : Client.ApiClient.

Lemma respond_runs (apiMessages : list ApiMessage) (s : State) :
  (responseMessages <- flattenMessages apiMessages ;;
   displayResponseMessages fetch_head responseMessages default_delay) s
  = (Returned tt, revealed fetch_head apiMessages s,
     reveal_spec fetch_head default_delay (response_batch apiMessages s)).
Proof.
  unfold bind, flattenMessages.
  rewrite displayResponseMessages_runs
    by (rewrite alloc_refs; apply seq_NoDup).
  reflexivity.
Qed.

Lemma revealed_frame (apiMessages : list ApiMessage) (s : State) :
  messages (revealed fetch_head apiMessages s)
    = messages s ++ response_batch apiMessages s
  /\ puriraWriting (revealed fetch_head apiMessages s) = puriraWriting s
  /\ summarizing (revealed fetch_head apiMessages s) = summarizing s
  /\ attachedImage (revealed fetch_head apiMessages s) = attachedImage s.
Proof.
  unfold revealed.
  destruct (reveal_state_frame fetch_head (response_batch apiMessages s)
              (set_next_ref
                 (next_ref s + length (flattenMessages_values apiMessages)) s))
    as (Hm & Hp & Hs & Ha).
  rewrite Hm, Hp, Hs, Ha. auto.
Qed.

(** Whatever the [try] block and the handler do, the [finally] block of
    the senders leaves [puriraWriting] false. *)
Lemma finally_clears_flag {A : Type} (body : M A)
    (handler : string -> M A) (s : State) :
  puriraWriting
    (final (try_catch_finally body handler
              (modify (set_puriraWriting false)) s)) = false.
Proof.
  unfold try_catch_finally, try_finally, try_catch, modify, final.
  destruct (body s) as [[[a | err] s1] t1]; [reflexivity |].
  destruct (handler err s1) as [[r s2] t2]. reflexivity.
Qed.

(* =================================================================== *)
(** ** send, step by step *)
(* =================================================================== *)

Lemma send_optimistic_runs (text : string) (s : State) :
  send_optimistic JSON_parse text s =
    match optimistic_filename JSON_parse s with
    | Some imageFilename =>
        (Returned (snapshot_of s), optimistic_state text imageFilename s,
         [Push (optimistic_message text imageFilename s); Tick])
    | None => (Thrown "SyntaxError", s, [])
    end.
Proof.
  unfold send_optimistic, optimistic_filename, snapshot_of, bind, get, parse.
  destruct (attachedImage s) as [json |] eqn:Hatt; [| reflexivity].
  destruct (truthy json); [| reflexivity].
  destruct (JSON_parse json); reflexivity.
Qed.

Lemma send_try_runs (text : string) (snapshot : Snapshot) (s : State) :
  send_try fetch_head JSON_parse api text snapshot s =
    match request_images JSON_parse snapshot with
    | Some images =>
        match Client.sendUnifiedMessage api text images with
        | Fulfilled apiMessages =>
            (Returned tt, revealed fetch_head apiMessages s,
             Request (SendUnifiedMessage text images)
               :: reveal_spec fetch_head default_delay
                    (response_batch apiMessages s))
        | Rejected err =>
            (Thrown err, s, [Request (SendUnifiedMessage text images)])
        end
    | None => (Thrown "SyntaxError", s, [])
    end.
Proof.
  assert (Hawait : forall images,
    (apiMessages <- await (SendUnifiedMessage text images)
                          (Client.sendUnifiedMessage api text images) ;;
     responseMessages <- flattenMessages apiMessages ;;
     displayResponseMessages fetch_head responseMessages default_delay) s
    = match Client.sendUnifiedMessage api text images with
      | Fulfilled apiMessages =>
          (Returned tt, revealed fetch_head apiMessages s,
           Request (SendUnifiedMessage text images)
             :: reveal_spec fetch_head default_delay
                  (response_batch apiMessages s))
      | Rejected err =>
          (Thrown err, s, [Request (SendUnifiedMessage text images)])
      end).
  { intros images. unfold bind at 1. unfold await.
    destruct (Client.sendUnifiedMessage api text images) as [apiMessages | err];
      [| reflexivity].
    rewrite respond_runs. reflexivity. }
  unfold send_try, request_images.
  destruct (attachmentData snapshot) as [json |]; [| apply Hawait].
  destruct (hadAttachment snapshot && truthy json); [| apply Hawait].
  unfold bind at 1. unfold bind at 1. unfold parse, await.
  destruct (JSON_parse json) as [imageData |]; [| reflexivity].
  destruct (Client.sendUnifiedMessage api text [imageData])
    as [apiMessages | err]; [| reflexivity].
  rewrite respond_runs. reflexivity.
Qed.

(** The [try] block of [send] only appends to the timeline and leaves the
    attachment alone, however it ends. *)
Lemma send_try_frame (text : string) (snapshot : Snapshot) (s : State) :
  let r := send_try fetch_head JSON_parse api text snapshot s in
  attachedImage (final r) = attachedImage s
  /\ exists more, messages (final r) = messages s ++ more.
Proof.
  cbv zeta. rewrite send_try_runs.
  destruct (request_images JSON_parse snapshot) as [images |];
    [| split; [reflexivity | exists []; now rewrite app_nil_r]].
  destruct (Client.sendUnifiedMessage api text images) as [apiMessages | err];
    [| split; [reflexivity | exists []; now rewrite app_nil_r]].
  unfold final. cbn [fst snd].
  destruct (revealed_frame apiMessages s) as (Hm & _ & _ & Ha).
  split; [exact Ha |]. now exists (response_batch apiMessages s).
Qed.

End Handlers.

(* ===================================================================== *)
(** ** send: success and failure *)
(* ===================================================================== *)

Lemma truthy_nonempty (s : string) : s <> "" -> truthy s = true.
Proof.
  intros Hne. unfold truthy. destruct (String.eqb_spec s ""); [contradiction |].
  reflexivity.
Qed.

Lemma attachment_ok_filename (JSON_parse : string -> option ImageData)
    (s : State) :
  attachment_ok JSON_parse s ->
  optimistic_filename JSON_parse s = Some (attached_filename JSON_parse s)
  /\ request_images JSON_parse (snapshot_of s)
       = Some (attached_images JSON_parse s).
Proof.
  unfold attachment_ok, optimistic_filename, request_images, snapshot_of,
    attached_filename, attached_images. cbn [attachmentData hadAttachment].
  destruct (attachedImage s) as [json |]; [| auto].
  intros [Hne Hparse]. rewrite (truthy_nonempty json Hne). cbn [not_null andb].
  destruct (JSON_parse json); [auto | contradiction].
Qed.

Lemma send_accepts (s : State) :
  trim (message s) <> "" -> puriraWriting s = false -> summarizing s = false ->
  send_rejects s = false.
Proof.
  intros Htext Hw Hs. unfold send_rejects.
  rewrite (truthy_nonempty _ Htext), Hw, Hs. reflexivity.
Qed.

(** [send] past its guard: the optimistic append, then the [try]. *)
Lemma send_accepted (fetch_head : string -> FetchResult)
    (JSON_parse : string -> option ImageData) (api : Client.ApiClient)
    (s s1 : State) (snapshot : Snapshot) (t1 : list Event) :
  send_rejects s = false ->
  send_optimistic JSON_parse (trim (message s)) s = (Returned snapshot, s1, t1) ->
  send fetch_head JSON_parse api s =
    let r := try_catch_finally
               (send_try fetch_head JSON_parse api (trim (message s)) snapshot)
               (send_catch snapshot)
               (modify (set_puriraWriting false)) s1 in
    (outcome r, final r, t1 ++ trace r).
Proof.
  intros Hguard Hopt. unfold send. unfold bind at 1. unfold get.
  rewrite Hguard. cbv zeta.
  rewrite (bind_returned _ _ _ _ _ _ Hopt).
  destruct (try_catch_finally _ _ _ s1) as [[r s2] t2]. reflexivity.
Qed.

(** C1.  A successful send.  When the text is not empty after trimming,
    neither [puriraWriting] nor [summarizing] is set, and the unified-message
    request is fulfilled, [send] returns and the timeline is the former one
    followed by one user message and then the flattened response in
    flattening order: [1 + |flatten(response)|] more messages.  The user
    message has the trimmed text as content and the filename of the pending
    attachment, when there is one, as [image_path]. *)
Theorem send_appends (fetch_head : string -> FetchResult)
    (JSON_parse : string -> option ImageData) (api : Client.ApiClient)
    (s : State) (response : list ApiMessage) :
  trim (message s) <> "" ->
  puriraWriting s = false ->
  summarizing s = false ->
  attachment_ok JSON_parse s ->
  Client.sendUnifiedMessage api (trim (message s)) (attached_images JSON_parse s)
    = Fulfilled response ->
  let r := send fetch_head JSON_parse api s in
  outcome r = Returned tt
  /\ exists user shown,
       messages (final r) = messages s ++ user :: shown
       /\ oval user = {| role := "user"; content := trim (message s);
                         mood := None;
                         image_path := attached_filename JSON_parse s |}
       /\ map oval shown = flattenMessages_values response
       /\ length (messages (final r))
            = (length (messages s) + (1 + length (flattenMessages_values response)))%nat.
Proof.
  intros Htext Hw Hs Hatt Hresponse.
  pose proof (send_accepts s Htext Hw Hs) as Hguard.
  destruct (attachment_ok_filename JSON_parse s Hatt) as [Hname Himages].
  pose proof (send_optimistic_runs JSON_parse (trim (message s)) s) as Hopt.
  rewrite Hname in Hopt.
  cbv zeta. rewrite (send_accepted fetch_head JSON_parse api _ _ _ _ Hguard Hopt).
  cbv zeta. unfold try_catch_finally, try_finally, try_catch.
  rewrite send_try_runs, Himages, Hresponse.
  unfold modify, outcome, final, trace. cbn [fst snd].
  split; [reflexivity |].
  set (s1 := optimistic_state (trim (message s))
               (attached_filename JSON_parse s) s).
  destruct (revealed_frame fetch_head response s1) as (Hm & _).
  exists (optimistic_message (trim (message s)) (attached_filename JSON_parse s) s),
         (response_batch response s1).
  assert (Htimeline :
    messages (set_puriraWriting false (revealed fetch_head response s1))
    = messages s
        ++ optimistic_message (trim (message s)) (attached_filename JSON_parse s) s
        :: response_batch response s1).
  { cbn [set_puriraWriting messages]. rewrite Hm. unfold s1, optimistic_state.
    cbn [set_puriraWriting set_attachedImage set_message set_messages messages].
    rewrite <- app_assoc. reflexivity. }
  split; [exact Htimeline |]. split; [reflexivity |].
  split; [apply alloc_values |].
  rewrite Htimeline, length_app. cbn [length].
  unfold response_batch. rewrite alloc_length. reflexivity.
Qed.

Lemma send_appends_witness :
  (trim (message typed_hello) <> ""
   /\ puriraWriting typed_hello = false
   /\ summarizing typed_hello = false
   /\ attachment_ok never_parses typed_hello
   /\ Client.sendUnifiedMessage greeting_service (trim (message typed_hello))
        (attached_images never_parses typed_hello) = Fulfilled greeting_response)
  /\ (let r := send no_assets_at_all never_parses greeting_service typed_hello in
      outcome r = Returned tt
      /\ exists user shown,
           messages (final r) = messages typed_hello ++ user :: shown
           /\ oval user = {| role := "user"; content := "hello"; mood := None;
                             image_path := None |}
           /\ map oval shown =
                [ {| role := "assistant"; content := "hi there"; mood := None;
                     image_path := None |};
                  {| role := "assistant"; content := "how are you";
                     mood := Some "excited"; image_path := None |} ]
           /\ length (messages (final r)) = 3%nat).
Proof.
  assert (Htext : trim (message typed_hello) <> "") by discriminate.
  split.
  - split; [exact Htext |]. repeat split.
  - exact (send_appends no_assets_at_all never_parses greeting_service
             typed_hello greeting_response Htext eq_refl eq_refl I eq_refl).
Defined.

Lemma send_catch_runs (snapshot : Snapshot) (err : string) (s : State) :
  let r := send_catch snapshot err s in
  outcome r = Returned tt
  /\ messages (final r) = firstn (messagesBeforeSend snapshot) (messages s)
  /\ attachedImage (final r)
       = (if hadAttachment snapshot then attachmentData snapshot
          else attachedImage s)
  /\ puriraWriting (final r) = puriraWriting s.
Proof.
  unfold send_catch, bind, console, modify, alert, emit, ret,
    outcome, final.
  destruct (hadAttachment snapshot);
    destruct (includes err "503" || includes err "summarization");
    cbn [fst snd]; auto.
Qed.

(** C2.  A failed send.  Once [send] has passed its guard and made the
    optimistic append, if its [try] block throws, by the request or by
    anything after it, then [send] itself returns, the timeline is again the
    one before the send, so of the same length, the pending attachment is
    the one before the send, the very same text when there was one, and
    [puriraWriting] is false. *)
Theorem send_failure_rolls_back (fetch_head : string -> FetchResult)
    (JSON_parse : string -> option ImageData) (api : Client.ApiClient)
    (s s1 s2 : State) (snapshot : Snapshot) (err : string)
    (t1 t2 : list Event) :
  send_rejects s = false ->
  send_optimistic JSON_parse (trim (message s)) s = (Returned snapshot, s1, t1) ->
  send_try fetch_head JSON_parse api (trim (message s)) snapshot s1
    = (Thrown err, s2, t2) ->
  let r := send fetch_head JSON_parse api s in
  outcome r = Returned tt
  /\ (length (messages s1) = S (length (messages s)))
  /\ messages (final r) = messages s
  /\ length (messages (final r)) = length (messages s)
  /\ attachedImage (final r) = attachedImage s
  /\ puriraWriting (final r) = false.
Proof.
  intros Hguard Hopt Htry.
  cbv zeta. rewrite (send_accepted fetch_head JSON_parse api _ _ _ _ Hguard Hopt).
  cbv zeta.
  pose proof (send_try_frame fetch_head JSON_parse api
                (trim (message s)) snapshot s1) as Hframe.
  cbv zeta in Hframe. rewrite Htry in Hframe. unfold final in Hframe.
  cbn [fst snd] in Hframe. destruct Hframe as (Hatt2 & more & Hmore).
  rewrite send_optimistic_runs in Hopt.
  destruct (optimistic_filename JSON_parse s) as [imageFilename |];
    [| discriminate].
  injection Hopt as Hsnap Hs1 _. subst snapshot s1.
  pose proof (send_catch_runs (snapshot_of s) err s2) as Hcatch.
  cbv zeta in Hcatch. destruct Hcatch as (Hout & Hmsgs & Hatt & _).
  unfold try_catch_finally, try_finally, try_catch. rewrite Htry.
  destruct (send_catch (snapshot_of s) err s2) as [[o s3] t3].
  unfold outcome, final in *. cbn [fst snd] in *. subst o.
  unfold modify. cbn [fst snd set_puriraWriting messages attachedImage
                      puriraWriting].
  assert (Hback : messages s3 = messages s).
  { rewrite Hmsgs, Hmore. cbn [snapshot_of messagesBeforeSend].
    unfold optimistic_state.
    cbn [set_puriraWriting set_attachedImage set_message set_messages messages].
    rewrite <- app_assoc, firstn_app, Nat.sub_diag, firstn_all.
    cbn [firstn]. apply app_nil_r. }
  split; [reflexivity |]. split.
  { unfold optimistic_state.
    cbn [set_puriraWriting set_attachedImage set_message set_messages messages].
    rewrite length_app. cbn [length]. lia. }
  split; [exact Hback |]. split; [now rewrite Hback |].
  split; [| reflexivity].
  rewrite Hatt. cbn [snapshot_of hadAttachment attachmentData].
  destruct (attachedImage s) as [json |] eqn:Hpending; [reflexivity |].
  cbn [not_null]. rewrite Hatt2. reflexivity.
Qed.

Lemma send_failure_rolls_back_witness :
  (send_rejects cat_pending = false
   /\ send_optimistic parse_cat (trim (message cat_pending)) cat_pending
        = (Returned (snapshot_of cat_pending),
           optimistic_state "look at my cat" (Some "1700000000000.png")
                            cat_pending,
           [Push (optimistic_message "look at my cat"
                    (Some "1700000000000.png") cat_pending); Tick])
   /\ send_try no_assets_at_all parse_cat busy_service
               (trim (message cat_pending)) (snapshot_of cat_pending)
               (optimistic_state "look at my cat" (Some "1700000000000.png")
                                 cat_pending)
        = (Thrown "Error: API Error 503: summarization in progress",
           optimistic_state "look at my cat" (Some "1700000000000.png")
                            cat_pending,
           [Request (SendUnifiedMessage "look at my cat" [cat_image])]))
  /\ (let r := send no_assets_at_all parse_cat busy_service cat_pending in
      messages (final r) = messages cat_pending
      /\ length (messages (final r)) = 1%nat
      /\ attachedImage (final r) = Some cat_json
      /\ puriraWriting (final r) = false).
Proof.
  split; [repeat split |].
  pose proof (send_failure_rolls_back no_assets_at_all parse_cat busy_service
                cat_pending _ _ _ _ _ _
                (eq_refl : send_rejects cat_pending = false)
                (eq_refl : send_optimistic parse_cat
                             (trim (message cat_pending)) cat_pending
                           = (Returned (snapshot_of cat_pending),
                              optimistic_state "look at my cat"
                                (Some "1700000000000.png") cat_pending,
                              [Push (optimistic_message "look at my cat"
                                       (Some "1700000000000.png") cat_pending);
                               Tick]))
                (eq_refl : send_try no_assets_at_all parse_cat busy_service
                             (trim (message cat_pending))
                             (snapshot_of cat_pending)
                             (optimistic_state "look at my cat"
                                (Some "1700000000000.png") cat_pending)
                           = (Thrown "Error: API Error 503: summarization in progress",
                              optimistic_state "look at my cat"
                                (Some "1700000000000.png") cat_pending,
                              [Request (SendUnifiedMessage "look at my cat"
                                          [cat_image])])))
    as (_ & _ & Htimeline & Hlength & Hattachment & Hflag).
  repeat split; assumption.
Defined.

(* ===================================================================== *)
(** ** The busy flag *)
(* ===================================================================== *)

Lemma send_flag (fetch_head : string -> FetchResult)
    (JSON_parse : string -> option ImageData) (api : Client.ApiClient)
    (s : State) :
  puriraWriting s = false ->
  puriraWriting (final (send fetch_head JSON_parse api s)) = false.
Proof.
  intros Hw. destruct (send_rejects s) eqn:Hguard.
  - unfold send. step_final. rewrite Hguard. exact Hw.
  - pose proof (send_optimistic_runs JSON_parse (trim (message s)) s) as Hopt.
    destruct (optimistic_filename JSON_parse s) as [imageFilename |].
    + rewrite (send_accepted fetch_head JSON_parse api _ _ _ _ Hguard Hopt).
      apply finally_clears_flag.
    + unfold send. step_final. rewrite Hguard.
      rewrite (bind_thrown _ _ _ _ _ _ Hopt). exact Hw.
Qed.

Lemma sendProactiveMessage_flag (fetch_head : string -> FetchResult)
    (api : Client.ApiClient) (s : State) :
  puriraWriting s = false ->
  puriraWriting (final (sendProactiveMessage fetch_head api s)) = false.
Proof.
  intros Hw. unfold sendProactiveMessage. do 2 step_final.
  destruct (busy _) eqn:Hbusy.
  - exact Hw.
  - step_final. apply finally_clears_flag.
Qed.

Lemma sendProactiveMessageAuto_flag (fetch_head : string -> FetchResult)
    (api : Client.ApiClient) (s : State) :
  puriraWriting s = false ->
  puriraWriting (final (sendProactiveMessageAuto fetch_head api s)) = false.
Proof.
  intros Hw. unfold sendProactiveMessageAuto. step_final.
  destruct (busy s) eqn:Hbusy.
  - exact Hw.
  - step_final. apply finally_clears_flag.
Qed.

(** C5, as the code has it.  A call of [send], of [sendProactiveMessage] or
    of [sendProactiveMessageAuto] that starts with [puriraWriting] false ends
    with [puriraWriting] false, whether its guard turns it away, the request
    is fulfilled, or the request or anything else in it throws. *)
Theorem sending_flag_cleared (fetch_head : string -> FetchResult)
    (JSON_parse : string -> option ImageData) (api : Client.ApiClient)
    (s : State) :
  puriraWriting s = false ->
  puriraWriting (final (send fetch_head JSON_parse api s)) = false
  /\ puriraWriting (final (sendProactiveMessage fetch_head api s)) = false
  /\ puriraWriting (final (sendProactiveMessageAuto fetch_head api s)) = false.
Proof.
  intros Hw. split; [| split].
  - now apply send_flag.
  - now apply sendProactiveMessage_flag.
  - now apply sendProactiveMessageAuto_flag.
Qed.

Lemma sending_flag_cleared_witness :
  puriraWriting cat_pending = false
  /\ puriraWriting
       (final (send no_assets_at_all parse_cat busy_service cat_pending))
     = false
  /\ puriraWriting
       (final (sendProactiveMessage no_assets_at_all busy_service cat_pending))
     = false
  /\ puriraWriting
       (final (sendProactiveMessageAuto no_assets_at_all busy_service
                                        cat_pending))
     = false.
Proof.
  split; [reflexivity |].
  apply (sending_flag_cleared no_assets_at_all parse_cat busy_service
           cat_pending).
  reflexivity.
Defined.

(** C5 as stated fails: a call made while [puriraWriting] is set is turned
    away by the guard and returns with the flag still set. *)
Lemma sending_flag_kept_by_guard :
  puriraWriting
    (final (send no_assets_at_all never_parses greeting_service still_writing))
  = true
  /\ puriraWriting
       (final (sendProactiveMessage no_assets_at_all greeting_service
                                    still_writing))
     = true
  /\ puriraWriting
       (final (sendProactiveMessageAuto no_assets_at_all greeting_service
                                        still_writing))
     = true.
Proof. repeat split. Qed.

(* ===================================================================== *)
(** ** The proactive check *)
(* ===================================================================== *)

(** C6.  One tick of the proactive check.  When [puriraWriting] or
    [summarizing] is set the tick does nothing at all: no event, so no
    request, and the state is left as it is.  A request in the trace of a
    tick therefore means that the tick saw both flags false; and a tick that
    sees both flags false does start with the should-send query. *)
Theorem proactiveCheck_skips_when_busy (fetch_head : string -> FetchResult)
    (api : Client.ApiClient) (s : State) :
  (puriraWriting s = true \/ summarizing s = true ->
     proactiveCheck fetch_head api s = (Returned tt, s, []))
  /\ (forall e, In e (trace (proactiveCheck fetch_head api s)) ->
        is_request e = true ->
        puriraWriting s = false /\ summarizing s = false)
  /\ (puriraWriting s = false -> summarizing s = false ->
        exists rest,
          trace (proactiveCheck fetch_head api s)
            = Request ShouldSendProactiveMessage :: rest).
Proof.
  assert (Hskip : busy s = true ->
            proactiveCheck fetch_head api s = (Returned tt, s, [])).
  { intros Hbusy. unfold proactiveCheck, try_catch, bind, get.
    rewrite Hbusy. reflexivity. }
  split; [| split].
  - intros Hflag. apply Hskip. unfold busy.
    destruct Hflag as [-> | ->]; [reflexivity | apply orb_true_r].
  - intros e Hin _. destruct (busy s) eqn:Hbusy.
    + rewrite (Hskip eq_refl) in Hin. contradiction.
    + now apply orb_false_elim in Hbusy.
  - intros Hw Hs. unfold proactiveCheck, try_catch, bind, get, busy, await.
    rewrite Hw, Hs. cbn [orb].
    destruct (Client.shouldSendProactiveMessage api) as [[|] | err].
    + unfold console, emit.
      destruct (sendProactiveMessageAuto fetch_head api s) as [[[[] | err] s1] t1];
        cbn [trace snd app]; eauto.
    + unfold ret. cbn [trace snd app]. eauto.
    + unfold console, emit. cbn [trace snd app]. eauto.
Qed.

Lemma proactiveCheck_skips_when_busy_witness :
  (puriraWriting still_writing = true \/ summarizing still_writing = true)
  /\ proactiveCheck no_assets_at_all busy_service still_writing
       = (Returned tt, still_writing, []).
Proof.
  split; [left; reflexivity |].
  apply (proj1 (proactiveCheck_skips_when_busy no_assets_at_all busy_service
                  still_writing)).
  left. reflexivity.
Defined.

(* ===================================================================== *)
(** ** Background actions *)
(* ===================================================================== *)

(** C9.  The web-search and reminisce actions.  Whether the guard turns the
    call away, the request is fulfilled or it is rejected, with the "Not
    enough messages" error of reminisce or with any other, the call returns,
    the timeline and the pending attachment are what they were and no
    message is pushed. *)
Theorem background_actions_keep_timeline (api : Client.ApiClient) (s : State) :
  (outcome (triggerWebSearch api s) = Returned tt
   /\ messages (final (triggerWebSearch api s)) = messages s
   /\ attachedImage (final (triggerWebSearch api s)) = attachedImage s
   /\ filter is_push (trace (triggerWebSearch api s)) = [])
  /\ (outcome (triggerReminisce api s) = Returned tt
      /\ messages (final (triggerReminisce api s)) = messages s
      /\ attachedImage (final (triggerReminisce api s)) = attachedImage s
      /\ filter is_push (trace (triggerReminisce api s)) = []).
Proof.
  unfold triggerWebSearch, triggerReminisce, toggleMenu, try_catch_finally,
    try_finally, try_catch, bind, get, modify, await, console, alert, emit,
    busy, outcome, final, trace.
  cbn [puriraWriting summarizing set_menuOpen].
  destruct (puriraWriting s), (summarizing s); cbn [orb fst snd].
  1-3: repeat split.
  destruct (Client.triggerWebSearch api) as [found | err];
    destruct (Client.triggerReminisce api) as [recalled | err'];
    try destruct (includes err' "Not enough messages");
    repeat split.
Qed.

(* ===================================================================== *)
(** ** The summarization poll *)
(* ===================================================================== *)

Lemma pollCallback_idle (api : Client.ApiClient) (s : State)
    (response : Api.SummarizeResponse) :
  Client.getSummarizationStatus api = Fulfilled response ->
  Api.status response = "idle" ->
  pollCallback api s =
    (Returned tt, set_summarizing false (set_pollInterval false s),
     [Request GetSummarizationStatus; ClearInterval;
      Console "Summarization completed"]).
Proof.
  intros Hquery Hidle.
  unfold pollCallback, try_catch, bind, await, clearPoll, modify, console, emit.
  rewrite Hquery, Hidle. reflexivity.
Qed.

Lemma pollCallback_failed (api : Client.ApiClient) (s : State) (err : string) :
  Client.getSummarizationStatus api = Rejected err ->
  pollCallback api s =
    (Returned tt,
     set_summarizeError ("Failed to check status: " ++ err)
       (set_summarizing false (set_pollInterval false s)),
     [Request GetSummarizationStatus; ClearInterval;
      Console ("Status check error: " ++ err)%string]).
Proof.
  intros Hquery.
  unfold pollCallback, try_catch, bind, await, clearPoll, modify, console, emit.
  rewrite Hquery. reflexivity.
Qed.

Lemma pollCallback_in_progress (api : Client.ApiClient) (s : State) :
  in_progress api ->
  pollCallback api s = (Returned tt, s, [Request GetSummarizationStatus]).
Proof.
  intros (response & Hquery & Hstatus).
  unfold pollCallback, try_catch, bind, await, ret.
  rewrite Hquery. apply String.eqb_neq in Hstatus. rewrite Hstatus.
  reflexivity.
Qed.

(** While every answer is a status other than ["idle"] the timer keeps
    firing and the state does not move. *)
Lemma poll_run_waiting (waiting later : list Client.ApiClient) (s : State) :
  Forall in_progress waiting ->
  pollInterval s = true ->
  poll_run (waiting ++ later) s =
    (fst (poll_run later s),
     map (fun _ => Request GetSummarizationStatus) waiting
       ++ snd (poll_run later s)).
Proof.
  intros Hwaiting Hset.
  induction Hwaiting as [| api waiting Hapi _ IH]; cbn [app map poll_run].
  - now destruct (poll_run later s).
  - rewrite Hset, (pollCallback_in_progress api s Hapi).
    cbn [final trace fst snd]. rewrite IH. reflexivity.
Qed.

(** C8.  The summarization poll.  An accepted [startSummarization] leaves
    [summarizing] set, the timer set and no error shown.  Then, at a tick of
    the timer: a status ["idle"] clears the timer and [summarizing], shows no
    alert and leaves [summarizeError] as it is; a failed query clears the
    timer and [summarizing] and puts the error in [summarizeError], which the
    page shows; any other status leaves the whole state as it is, the timer
    and [summarizing] included.  Over a run of the timer: as long as the
    answers are statuses other than ["idle"] the state stays put, and the
    first other answer is the last tick that runs. *)
Theorem pollCallback_outcomes (api : Client.ApiClient) (s : State) :
  (forall accepted,
     Client.startSummarization api = Fulfilled accepted ->
     let s0 := final (startSummarization api s) in
     summarizing s0 = true /\ pollInterval s0 = true /\ summarizeError s0 = "")
  /\ (forall response,
        Client.getSummarizationStatus api = Fulfilled response ->
        Api.status response = "idle" ->
        let r := pollCallback api s in
        outcome r = Returned tt
        /\ pollInterval (final r) = false
        /\ summarizing (final r) = false
        /\ summarizeError (final r) = summarizeError s
        /\ filter is_alert (trace r) = [])
  /\ (forall err,
        Client.getSummarizationStatus api = Rejected err ->
        let r := pollCallback api s in
        outcome r = Returned tt
        /\ pollInterval (final r) = false
        /\ summarizing (final r) = false
        /\ summarizeError (final r) = ("Failed to check status: " ++ err)%string)
  /\ (in_progress api ->
        let r := pollCallback api s in
        outcome r = Returned tt /\ final r = s)
  /\ (forall waiting later,
        Forall in_progress waiting ->
        pollInterval s = true ->
        fst (poll_run waiting s) = s
        /\ (~ in_progress api ->
            fst (poll_run (waiting ++ api :: later) s)
              = final (pollCallback api s)
            /\ pollInterval (final (pollCallback api s)) = false
            /\ summarizing (final (pollCallback api s)) = false)).
Proof.
  split; [| split; [| split; [| split]]].
  - intros accepted Haccepted.
    unfold startSummarization, toggleMenu, try_catch, bind, modify, await,
      console, emit, final.
    rewrite Haccepted. repeat split.
  - intros response Hquery Hidle.
    cbv zeta. rewrite (pollCallback_idle api s response Hquery Hidle).
    repeat split.
  - intros err Hquery.
    cbv zeta. rewrite (pollCallback_failed api s err Hquery).
    repeat split.
  - intros Hprogress.
    cbv zeta. rewrite (pollCallback_in_progress api s Hprogress).
    split; reflexivity.
  - intros waiting later Hwaiting Hset. split.
    + rewrite <- (app_nil_r waiting) at 1.
      rewrite (poll_run_waiting waiting [] s Hwaiting Hset). reflexivity.
    + intros Hstops.
      rewrite (poll_run_waiting waiting (api :: later) s Hwaiting Hset).
      cbn [fst poll_run]. rewrite Hset.
      assert (Hcleared :
        pollInterval (final (pollCallback api s)) = false
        /\ summarizing (final (pollCallback api s)) = false).
      { destruct (Client.getSummarizationStatus api) as [response | err] eqn:Hquery.
        - destruct (String.eqb_spec (Api.status response) "idle") as [Hidle | Hne].
          + rewrite (pollCallback_idle api s response Hquery Hidle).
            split; reflexivity.
          + exfalso. apply Hstops. now exists response.
        - rewrite (pollCallback_failed api s err Hquery). split; reflexivity. }
      destruct Hcleared as [Htimer Hflag]. split; [| split; assumption].
      destruct later as [| next later']; cbn [poll_run].
      * reflexivity.
      * rewrite Htimer. reflexivity.
Qed.

Lemma pollCallback_outcomes_witness :
  (Client.getSummarizationStatus idle_service
     = Fulfilled (Api.mkSummarizeResponse "idle" "done")
   /\ Api.status (Api.mkSummarizeResponse "idle" "done") = "idle")
  /\ (let r := pollCallback idle_service summarizing_now in
      outcome r = Returned tt
      /\ pollInterval (final r) = false
      /\ summarizing (final r) = false
      /\ summarizeError (final r) = summarizeError summarizing_now
      /\ filter is_alert (trace r) = []).
Proof.
  split; [split; reflexivity |].
  exact (proj1 (proj2 (pollCallback_outcomes idle_service summarizing_now))
           (Api.mkSummarizeResponse "idle" "done") eq_refl eq_refl).
Defined.

(* ===================================================================== *)
(** ** Further properties: flattening *)
(* ===================================================================== *)

Lemma flattenMessage_from (msg : ApiMessage) (b : Message) :
  In b (flattenMessage msg) ->
  role b = Api.role msg /\ mood b = Api.mood msg
  /\ image_path b = Api.image_path msg
  /\ In (content b) (Api.content_split msg).
Proof.
  unfold flattenMessage.
  destruct (truthy_opt (Api.image_path msg)
            && (2 <=? length (Api.content_split msg))%nat) eqn:Hcase.
  - apply andb_true_iff in Hcase. destruct Hcase as [_ Hlen].
    apply Nat.leb_le in Hlen. intros [<- | []]. cbn [role mood image_path content].
    repeat split. apply nth_In. lia.
  - intros Hin. apply in_map_iff in Hin. destruct Hin as (segment & <- & Hseg).
    cbn [role mood image_path content]. auto.
Qed.

Lemma flattenMessage_count (msg : ApiMessage) :
  (length (flattenMessage msg) <= length (Api.content_split msg))%nat
  /\ (~ carries_image msg ->
      length (flattenMessage msg) = length (Api.content_split msg)).
Proof.
  unfold flattenMessage, carries_image.
  destruct (truthy_opt (Api.image_path msg)) eqn:Himg; cbn [andb].
  - split; [| intros Hno; now elim Hno].
    destruct (2 <=? length (Api.content_split msg))%nat eqn:Hlen.
    + apply Nat.leb_le in Hlen. cbn [length]. lia.
    + rewrite length_map. lia.
  - rewrite length_map. split; [lia | reflexivity].
Qed.

(** X1.  Flattening invents nothing.  Every bubble of a flattened list of
    server messages has the role, mood and image reference of one of these
    messages and one of its content segments as content; there are at most
    as many bubbles as content segments, and exactly as many when no
    message carries an image reference. *)
Theorem flattenMessages_provenance (apiMessages : list ApiMessage) :
  (forall b, In b (flattenMessages_values apiMessages) ->
     exists msg,
       In msg apiMessages
       /\ role b = Api.role msg /\ mood b = Api.mood msg
       /\ image_path b = Api.image_path msg
       /\ In (content b) (Api.content_split msg))
  /\ (length (flattenMessages_values apiMessages)
        <= segment_count apiMessages)%nat
  /\ ((forall msg, In msg apiMessages -> ~ carries_image msg) ->
      length (flattenMessages_values apiMessages) = segment_count apiMessages).
Proof.
  unfold flattenMessages_values, segment_count, list_sum. split; [| split].
  - intros b Hin. apply in_flat_map in Hin. destruct Hin as (msg & Hmsg & Hb).
    exists msg. split; [exact Hmsg |]. now apply flattenMessage_from.
  - induction apiMessages as [| msg rest IH]; [apply Nat.le_refl |].
    cbn [flat_map map fold_right]. rewrite length_app.
    pose proof (proj1 (flattenMessage_count msg)). lia.
  - induction apiMessages as [| msg rest IH]; intros Hplain; [reflexivity |].
    cbn [flat_map map fold_right]. rewrite length_app.
    rewrite (proj2 (flattenMessage_count msg)) by (apply Hplain; now left).
    rewrite IH by (intros m Hm; apply Hplain; now right). reflexivity.
Qed.

Lemma flattenMessages_provenance_witness :
  (forall msg, In msg greeting_response -> ~ carries_image msg)
  /\ length (flattenMessages_values greeting_response)
       = segment_count greeting_response.
Proof.
  assert (Hplain : forall msg, In msg greeting_response -> ~ carries_image msg).
  { intros msg [<- | [<- | []]]; discriminate. }
  split; [exact Hplain |].
  exact (proj2 (proj2 (flattenMessages_provenance greeting_response)) Hplain).
Defined.

(* ===================================================================== *)
(** ** Further properties: mood resolution *)
(* ===================================================================== *)

Section FirstAsset.

Variable fetch_head : string -> FetchResult.

Lemma find_first {A : Type} (p : A -> bool) (l : list A) (x : A) :
  find p l = Some x ->
  p x = true
  /\ exists before after,
       l = before ++ x :: after /\ forall y, In y before -> p y = false.
Proof.
  induction l as [| a l IH]; [discriminate |]. cbn [find].
  destruct (p a) eqn:Hpa.
  - intros [= <-]. split; [exact Hpa |]. exists [], l. split; [reflexivity |].
    intros y [].
  - intros Hfind. destruct (IH Hfind) as (Hpx & before & after & -> & Hbefore).
    split; [exact Hpx |]. exists (a :: before), after. split; [reflexivity |].
    intros y [<- | Hy]; [exact Hpa | now apply Hbefore].
Qed.

Lemma probe_formats_find (mood : string) (formats : list string) :
  fst (probe_formats fetch_head mood formats)
    = find (asset_exists fetch_head mood) formats.
Proof.
  induction formats as [| format rest IH]; [reflexivity |].
  cbn [probe_formats find]. unfold asset_exists at 1.
  destruct (fetch_head (avatar_url mood format)); [reflexivity | |].
  all: destruct (probe_formats fetch_head mood rest); exact IH.
Qed.

(** The avatar [get_extension] returns, read off the first asset found. *)
Lemma get_extension_result (m : string) :
  fst (get_extension fetch_head m) =
    match find (asset_exists fetch_head m) extensions with
    | Some ext => Avatar.mk m ext
    | None =>
        if string_dec m "normal" then Avatar.mk "normal" "png"
        else fst (get_extension fetch_head "normal")
    end.
Proof.
  rewrite get_extension_body. unfold extensions. cbn [find].
  unfold asset_exists at 1.
  pose proof (probe_formats_find m imageFormats) as Hfind.
  destruct (fetch_head (avatar_url m "mp4")); [reflexivity | |].
  all: destruct (probe_formats fetch_head m imageFormats) as [[format |] probes].
  all: cbn [fst] in Hfind; rewrite <- Hfind.
  all: try reflexivity.
  all: destruct (string_dec m "normal"); [reflexivity |].
  all: destruct (get_extension fetch_head "normal"); reflexivity.
Qed.

Lemma find_none_no_asset (m : string) :
  find (asset_exists fetch_head m) extensions = None -> no_asset fetch_head m.
Proof.
  intros Hnone ext Hin Hok.
  pose proof (find_none _ _ Hnone ext Hin) as Hext.
  unfold asset_exists in Hext. rewrite Hok in Hext. discriminate.
Qed.

End FirstAsset.

(** X2.  What [get_extension] returns is the first asset that exists.
    Either the asset of the returned mood and extension answers [ok], no
    extension earlier in the probing order does for that mood, and the mood
    is the requested one, or ["normal"] when the requested mood has no
    asset at all; or nothing exists for the requested mood nor for
    ["normal"] and the result is the default [{ "normal", "png" }]. *)
Theorem get_extension_first_existing (fetch_head : string -> FetchResult)
    (mood : string) :
  let r := fst (get_extension fetch_head mood) in
  (fetch_head (avatar_url (Avatar.mood r) (Avatar.extension r)) = FetchOk
   /\ (exists before after,
         extensions = before ++ Avatar.extension r :: after
         /\ forall ext, In ext before ->
              fetch_head (avatar_url (Avatar.mood r) ext) <> FetchOk)
   /\ (Avatar.mood r = mood
       \/ (Avatar.mood r = "normal" /\ no_asset fetch_head mood)))
  \/ (r = Avatar.mk "normal" "png"
      /\ no_asset fetch_head mood /\ no_asset fetch_head "normal").
Proof.
  assert (Hfound : forall m ext,
    find (asset_exists fetch_head m) extensions = Some ext ->
    fetch_head (avatar_url m ext) = FetchOk
    /\ exists before after,
         extensions = before ++ ext :: after
         /\ forall e, In e before -> fetch_head (avatar_url m e) <> FetchOk).
  { intros m ext Hfind. apply find_first in Hfind.
    destruct Hfind as (Hok & before & after & Hsplit & Hbefore).
    unfold asset_exists in Hok. split.
    - destruct (fetch_head (avatar_url m ext)); [reflexivity | discriminate ..].
    - exists before, after. split; [exact Hsplit |].
      intros e He Heok. specialize (Hbefore e He). unfold asset_exists in Hbefore.
      rewrite Heok in Hbefore. discriminate. }
  cbv zeta. rewrite get_extension_result.
  destruct (find (asset_exists fetch_head mood) extensions) as [ext |] eqn:Hmood.
  - left. cbn [Avatar.mood Avatar.extension].
    destruct (Hfound mood ext Hmood) as [Hok Hfirst]. auto.
  - pose proof (find_none_no_asset fetch_head mood Hmood) as Hnone.
    destruct (string_dec mood "normal") as [-> | Hne]; [right; auto |].
    rewrite get_extension_result.
    destruct (find (asset_exists fetch_head "normal") extensions)
      as [ext |] eqn:Hnormal.
    + left. cbn [Avatar.mood Avatar.extension].
      destruct (Hfound "normal" ext Hnormal) as [Hok Hfirst]. auto.
    + pose proof (find_none_no_asset fetch_head "normal" Hnormal).
      destruct (string_dec "normal" "normal") as [_ | Habs];
        [right; auto | now elim Habs].
Qed.

(* ===================================================================== *)
(** ** Further properties: how the handlers run *)
(* ===================================================================== *)

(** The reveal shows messages and resolves moods, nothing else. *)
Lemma reveal_spec_quiet (fetch_head : string -> FetchResult) (delay : Z)
    (batch : list Obj) (e : Event) :
  In e (reveal_spec fetch_head delay batch) ->
  is_request e = false /\ is_alert e = false /\ is_set_interval e = false.
Proof.
  induction batch as [| msg rest IH]; [intros [] |].
  cbn [reveal_spec]. intros [<- | Hin]; [auto |].
  apply in_app_or in Hin. destruct Hin as [Hmood | [<- | Hrest]]; [| auto |].
  - unfold mood_events in Hmood.
    destruct (mood (oval msg)) as [m |]; [| contradiction].
    destruct (truthy m); [| contradiction].
    apply in_app_or in Hmood. destruct Hmood as [Hprobe | [<- | []]]; [| auto].
    apply get_extension_only_probes in Hprobe. destruct Hprobe as [url ->].
    auto.
  - destruct rest as [| next rest']; [contradiction |].
    destruct Hrest as [<- | Hrest]; [auto | now apply IH].
Qed.

Lemma reveal_spec_filter (fetch_head : string -> FetchResult) (delay : Z)
    (batch : list Obj) :
  filter is_request (reveal_spec fetch_head delay batch) = []
  /\ filter is_alert (reveal_spec fetch_head delay batch) = [].
Proof.
  split; apply filter_none; intros e He;
    now apply (reveal_spec_quiet fetch_head delay batch e).
Qed.

(** The reveal moves the timeline and the avatar, nothing else. *)
Lemma reveal_state_shape (fetch_head : string -> FetchResult)
    (batch : list Obj) (s : State) :
  exists m e,
    reveal_state fetch_head batch s
      = set_avatar m e (set_messages (messages s ++ batch) s).
Proof.
  unfold reveal_state. revert s.
  induction batch as [| msg rest IH]; intros s.
  - exists (currentMood s), (currentExtension s). destruct s.
    cbn. rewrite app_nil_r. reflexivity.
  - cbn [fold_left].
    destruct (IH (apply_mood fetch_head msg
                    (set_messages (messages s ++ [msg]) s))) as (m & e & ->).
    exists m, e. unfold apply_mood.
    destruct (mood (oval msg)) as [md |]; [destruct (truthy md) |].
    all: cbn; rewrite <- app_assoc; reflexivity.
Qed.

Lemma revealed_shape (fetch_head : string -> FetchResult)
    (apiMessages : list ApiMessage) (s : State) :
  exists m e,
    revealed fetch_head apiMessages s
      = set_avatar m e
          (set_messages (messages s ++ response_batch apiMessages s)
             (set_next_ref
                (next_ref s + length (flattenMessages_values apiMessages)) s)).
Proof.
  unfold revealed.
  destruct (reveal_state_shape fetch_head (response_batch apiMessages s)
              (set_next_ref
                 (next_ref s + length (flattenMessages_values apiMessages)) s))
    as (m & e & ->).
  now exists m, e.
Qed.

Section Runs.

Variable fetch_head : string -> FetchResult.
Variable JSON_parse : string -> option ImageData.
Variable api : Client.ApiClient.

Lemma send_catch_explicit (snapshot : Snapshot) (err : string) (s : State) :
  send_catch snapshot err s =
    (Returned tt, rolled_back snapshot s,
     [Console ("Failed to send message: " ++ err);
      Alert (send_alert_text err)]).
Proof.
  unfold send_catch, rolled_back, send_alert_text, bind, console, modify,
    alert, emit, ret.
  destruct (hadAttachment snapshot);
    destruct (includes err "503" || includes err "summarization");
    reflexivity.
Qed.

(** [send] past its guard, with an attachment that parses or none. *)
Lemma send_runs (s : State) (imageFilename : option string)
    (images : list ImageData) :
  send_rejects s = false ->
  optimistic_filename JSON_parse s = Some imageFilename ->
  request_images JSON_parse (snapshot_of s) = Some images ->
  let text := trim (message s) in
  let s1 := optimistic_state text imageFilename s in
  let started :=
    [Push (optimistic_message text imageFilename s); Tick;
     Request (SendUnifiedMessage text images)] in
  send fetch_head JSON_parse api s =
    match Client.sendUnifiedMessage api text images with
    | Fulfilled apiMessages =>
        (Returned tt,
         set_puriraWriting false (revealed fetch_head apiMessages s1),
         started ++ reveal_spec fetch_head default_delay
                      (response_batch apiMessages s1))
    | Rejected err =>
        (Returned tt,
         set_puriraWriting false (rolled_back (snapshot_of s) s1),
         started ++ [Console ("Failed to send message: " ++ err);
                     Alert (send_alert_text err)])
    end.
Proof.
  intros Hguard Hname Himages. cbv zeta.
  pose proof (send_optimistic_runs JSON_parse (trim (message s)) s) as Hopt.
  rewrite Hname in Hopt.
  rewrite (send_accepted fetch_head JSON_parse api _ _ _ _ Hguard Hopt).
  cbv zeta. unfold try_catch_finally, try_finally, try_catch.
  rewrite send_try_runs, Himages.
  destruct (Client.sendUnifiedMessage api (trim (message s)) images)
    as [apiMessages | err].
  - unfold modify, outcome, final, trace. cbn [fst snd app].
    rewrite app_nil_r. reflexivity.
  - rewrite send_catch_explicit. reflexivity.
Qed.

Lemma proactive_try_runs (s : State) :
  proactive_try fetch_head api s =
    match Client.sendProactiveMessage api with
    | Fulfilled apiMessages =>
        (Returned tt, revealed fetch_head apiMessages s,
         Request SendProactiveMessage
           :: reveal_spec fetch_head default_delay
                (response_batch apiMessages s))
    | Rejected err => (Thrown err, s, [Request SendProactiveMessage])
    end.
Proof.
  unfold proactive_try. unfold bind at 1. unfold await.
  destruct (Client.sendProactiveMessage api) as [apiMessages | err];
    [| reflexivity].
  rewrite respond_runs. reflexivity.
Qed.

Lemma sendProactiveMessageAuto_runs (s : State) :
  sendProactiveMessageAuto fetch_head api s =
    if busy s then (Returned tt, s, [])
    else
      match Client.sendProactiveMessage api with
      | Fulfilled apiMessages =>
          (Returned tt,
           set_puriraWriting false
             (revealed fetch_head apiMessages (set_puriraWriting true s)),
           Request SendProactiveMessage
             :: reveal_spec fetch_head default_delay
                  (response_batch apiMessages (set_puriraWriting true s)))
      | Rejected err =>
          (Returned tt, set_puriraWriting false (set_puriraWriting true s),
           [Request SendProactiveMessage;
            Console ("Failed to send automatic proactive message: " ++ err)])
      end.
Proof.
  unfold sendProactiveMessageAuto. unfold bind at 1. unfold get.
  destruct (busy s); [reflexivity |].
  unfold bind at 1. unfold modify at 1.
  unfold try_catch_finally, try_finally, try_catch.
  rewrite proactive_try_runs.
  destruct (Client.sendProactiveMessage api) as [apiMessages | err];
    unfold modify; cbn [app]; rewrite ?app_nil_r; reflexivity.
Qed.

Lemma sendProactiveMessage_runs (s : State) :
  sendProactiveMessage fetch_head api s =
    if busy s then (Returned tt, menu_toggled s, [Alert please_wait])
    else
      match Client.sendProactiveMessage api with
      | Fulfilled apiMessages =>
          (Returned tt,
           set_puriraWriting false
             (revealed fetch_head apiMessages
                (set_puriraWriting true (menu_toggled s))),
           Request SendProactiveMessage
             :: reveal_spec fetch_head default_delay
                  (response_batch apiMessages
                     (set_puriraWriting true (menu_toggled s))))
      | Rejected err =>
          (Returned tt,
           set_puriraWriting false (set_puriraWriting true (menu_toggled s)),
           [Request SendProactiveMessage;
            Console ("Failed to send proactive message: " ++ err);
            Alert ("Error: " ++ err)])
      end.
Proof.
  unfold sendProactiveMessage, toggleMenu.
  unfold bind at 1. unfold modify at 1. unfold bind at 1. unfold get.
  change (busy (set_menuOpen (negb (menuOpen s)) s)) with (busy s).
  destruct (busy s); [reflexivity |].
  unfold bind at 1. unfold modify at 1.
  unfold try_catch_finally, try_finally, try_catch.
  rewrite proactive_try_runs.
  destruct (Client.sendProactiveMessage api) as [apiMessages | err];
    unfold modify; cbn [app]; rewrite ?app_nil_r; reflexivity.
Qed.

End Runs.

(* ===================================================================== *)
(** ** Further properties: the guards *)
(* ===================================================================== *)



Lemma trim_blank (text : string) : blank text -> trim text = "".
Proof.
  unfold trim, blank. induction text as [| c rest IH]; intros Hblank.
  - reflexivity.
  - cbn [trim_start]. rewrite (Hblank c) by now left.
    apply IH. intros c' Hc'. apply Hblank. now right.
Qed.

(** X4.  A text made of white space only is not sent: [send] returns with
    the state as it is, the text still in the box, and makes no request. *)
Theorem send_ignores_blank_text (fetch_head : string -> FetchResult)
    (JSON_parse : string -> option ImageData) (api : Client.ApiClient)
    (s : State) :
  blank (message s) ->
  send fetch_head JSON_parse api s = (Returned tt, s, []).
Proof.
  intros Hblank. unfold send, bind, get, send_rejects.
  rewrite (trim_blank _ Hblank). reflexivity.
Qed.

Lemma send_ignores_blank_text_witness :
  blank (message (set_message "   " cat_pending))
  /\ send no_assets_at_all parse_cat greeting_service
          (set_message "   " cat_pending)
       = (Returned tt, set_message "   " cat_pending, []).
Proof.
  assert (Hblank : blank (message (set_message "   " cat_pending))).
  { intros c [<- | [<- | [<- | []]]]; reflexivity. }
  split; [exact Hblank |].
  exact (send_ignores_blank_text no_assets_at_all parse_cat greeting_service
           (set_message "   " cat_pending) Hblank).
Defined.

(* ===================================================================== *)
(** ** Further properties: what a send leaves behind *)
(* ===================================================================== *)

(** X5.  A send that passes the guard makes exactly one request, the
    unified message with the trimmed text and the pending attachment as its
    only image, or no image; it returns whatever the service answers, and
    the text box is empty afterwards, also when the request failed.  When
    the request is fulfilled the attachment is gone. *)
Theorem send_makes_one_request (fetch_head : string -> FetchResult)
    (JSON_parse : string -> option ImageData) (api : Client.ApiClient)
    (s : State) :
  trim (message s) <> "" ->
  puriraWriting s = false ->
  summarizing s = false ->
  attachment_ok JSON_parse s ->
  let r := send fetch_head JSON_parse api s in
  outcome r = Returned tt
  /\ filter is_request (trace r)
       = [Request (SendUnifiedMessage (trim (message s))
                                      (attached_images JSON_parse s))]
  /\ message (final r) = ""
  /\ (forall apiMessages,
        Client.sendUnifiedMessage api (trim (message s))
                                  (attached_images JSON_parse s)
          = Fulfilled apiMessages ->
        attachedImage (final r) = None).
Proof.
  intros Htext Hw Hs Hatt.
  pose proof (send_accepts s Htext Hw Hs) as Hguard.
  destruct (attachment_ok_filename JSON_parse s Hatt) as [Hname Himages].
  cbv zeta.
  rewrite (send_runs fetch_head JSON_parse api s _ _ Hguard Hname Himages).
  cbv zeta.
  destruct (Client.sendUnifiedMessage api (trim (message s))
              (attached_images JSON_parse s)) as [apiMessages | err].
  - unfold outcome, final, trace. cbn [fst snd].
    rewrite filter_app, (proj1 (reveal_spec_filter _ _ _)).
    destruct (revealed_shape fetch_head apiMessages
                (optimistic_state (trim (message s))
                   (attached_filename JSON_parse s) s)) as (m & e & ->).
    repeat split.
  - unfold outcome, final, trace, rolled_back. cbn [fst snd].
    destruct (hadAttachment (snapshot_of s));
      (split; [reflexivity |]); (split; [reflexivity |]);
      (split; [reflexivity |]); intros apiMessages Habs; discriminate.
Qed.

Lemma send_makes_one_request_witness :
  (trim (message cat_pending) <> ""
   /\ puriraWriting cat_pending = false
   /\ summarizing cat_pending = false
   /\ attachment_ok parse_cat cat_pending)
  /\ (let r := send no_assets_at_all parse_cat busy_service cat_pending in
      filter is_request (trace r)
        = [Request (SendUnifiedMessage "look at my cat" [cat_image])]
      /\ message (final r) = "").
Proof.
  assert (Htext : trim (message cat_pending) <> "") by discriminate.
  assert (Hatt : attachment_ok parse_cat cat_pending)
    by (split; discriminate).
  split;
    [split; [exact Htext | split; [reflexivity | split; [reflexivity | exact Hatt]]] |].
  destruct (send_makes_one_request no_assets_at_all parse_cat busy_service
              cat_pending Htext eq_refl eq_refl Hatt)
    as (_ & Hrequest & Hbox & _).
  split; assumption.
Defined.

(** X6.  The alerts of a send that passes the guard.  A fulfilled request
    shows no alert.  A rejected one shows exactly one: the "summarization in
    progress" text when the error mentions [503] or [summarization], the
    error itself after ["Error: "] otherwise. *)
Theorem send_alerts (fetch_head : string -> FetchResult)
    (JSON_parse : string -> option ImageData) (api : Client.ApiClient)
    (s : State) :
  trim (message s) <> "" ->
  puriraWriting s = false ->
  summarizing s = false ->
  attachment_ok JSON_parse s ->
  filter is_alert (trace (send fetch_head JSON_parse api s)) =
    match Client.sendUnifiedMessage api (trim (message s))
                                    (attached_images JSON_parse s) with
    | Fulfilled _ => []
    | Rejected err =>
        [Alert (if includes err "503" || includes err "summarization"
                then "Cannot send messages while summarization is in progress. Please wait."
                else "Error: " ++ err)%string]
    end.
Proof.
  intros Htext Hw Hs Hatt.
  pose proof (send_accepts s Htext Hw Hs) as Hguard.
  destruct (attachment_ok_filename JSON_parse s Hatt) as [Hname Himages].
  rewrite (send_runs fetch_head JSON_parse api s _ _ Hguard Hname Himages).
  cbv zeta.
  destruct (Client.sendUnifiedMessage api (trim (message s))
              (attached_images JSON_parse s)) as [apiMessages | err].
  - unfold trace. cbn [snd].
    rewrite filter_app, (proj2 (reveal_spec_filter _ _ _)). reflexivity.
  - reflexivity.
Qed.

Lemma send_alerts_witness :
  (trim (message cat_pending) <> ""
   /\ puriraWriting cat_pending = false
   /\ summarizing cat_pending = false
   /\ attachment_ok parse_cat cat_pending)
  /\ filter is_alert
       (trace (send no_assets_at_all parse_cat busy_service cat_pending))
     = [Alert "Cannot send messages while summarization is in progress. Please wait."].
Proof.
  assert (Htext : trim (message cat_pending) <> "") by discriminate.
  assert (Hatt : attachment_ok parse_cat cat_pending)
    by (split; discriminate).
  split;
    [split; [exact Htext | split; [reflexivity | split; [reflexivity | exact Hatt]]] |].
  exact (send_alerts no_assets_at_all parse_cat busy_service cat_pending
           Htext eq_refl eq_refl Hatt).
Defined.

(* ===================================================================== *)
(** ** Further properties: proactive messages *)
(* ===================================================================== *)

Lemma proactiveCheck_runs (fetch_head : string -> FetchResult)
    (api : Client.ApiClient) (s : State) :
  proactiveCheck fetch_head api s =
    if busy s then (Returned tt, s, [])
    else
      match Client.shouldSendProactiveMessage api with
      | Fulfilled true =>
          (Returned tt,
           final (sendProactiveMessageAuto fetch_head api s),
           Request ShouldSendProactiveMessage
             :: Console "15 minutes elapsed since last user message, sending proactive message"
             :: trace (sendProactiveMessageAuto fetch_head api s))
      | Fulfilled false =>
          (Returned tt, s, [Request ShouldSendProactiveMessage])
      | Rejected err =>
          (Returned tt, s,
           [Request ShouldSendProactiveMessage;
            Console ("Failed to check for proactive message: " ++ err)])
      end.
Proof.
  unfold proactiveCheck, try_catch. unfold bind at 1. unfold get.
  destruct (busy s) eqn:Hbusy; [reflexivity |].
  unfold bind at 1. unfold await.
  destruct (Client.shouldSendProactiveMessage api) as [[|] | err];
    [| reflexivity | reflexivity].
  unfold bind at 1. unfold console at 1. unfold emit at 1.
  rewrite sendProactiveMessageAuto_runs, Hbusy.
  destruct (Client.sendProactiveMessage api); reflexivity.
Qed.

(** X7.  A proactive message on a page that is not busy, from the menu or
    from the timer.  Exactly one request is made.  When it is fulfilled the
    timeline is the former one followed by the flattened response in order;
    when it is rejected the timeline is as it was, and only the menu variant
    shows the error. *)
Theorem proactive_send_timeline (fetch_head : string -> FetchResult)
    (api : Client.ApiClient) (s : State) :
  busy s = false ->
  let manual := sendProactiveMessage fetch_head api s in
  let auto := sendProactiveMessageAuto fetch_head api s in
  (outcome manual = Returned tt /\ outcome auto = Returned tt)
  /\ (filter is_request (trace manual) = [Request SendProactiveMessage]
      /\ filter is_request (trace auto) = [Request SendProactiveMessage])
  /\ match Client.sendProactiveMessage api with
     | Fulfilled apiMessages =>
         (exists shown,
            messages (final manual) = messages s ++ shown
            /\ map oval shown = flattenMessages_values apiMessages)
         /\ (exists shown,
               messages (final auto) = messages s ++ shown
               /\ map oval shown = flattenMessages_values apiMessages)
         /\ filter is_alert (trace manual) = []
     | Rejected err =>
         messages (final manual) = messages s
         /\ messages (final auto) = messages s
         /\ filter is_alert (trace manual) = [Alert ("Error: " ++ err)%string]
     end.
Proof.
  intros Hbusy. cbv zeta.
  rewrite sendProactiveMessage_runs, sendProactiveMessageAuto_runs, Hbusy.
  destruct (Client.sendProactiveMessage api) as [apiMessages | err].
  - unfold outcome, final, trace. cbn [fst snd filter is_request is_alert].
    rewrite !(proj1 (reveal_spec_filter _ _ _)).
    rewrite (proj2 (reveal_spec_filter _ _ _)).
    destruct (revealed_shape fetch_head apiMessages
                (set_puriraWriting true (menu_toggled s))) as (m & e & ->).
    destruct (revealed_shape fetch_head apiMessages
                (set_puriraWriting true s)) as (m' & e' & ->).
    split; [split; reflexivity |]. split; [split; reflexivity |].
    split; [| split; [| reflexivity]].
    + exists (response_batch apiMessages
                (set_puriraWriting true (menu_toggled s))).
      split; [reflexivity | apply alloc_values].
    + exists (response_batch apiMessages (set_puriraWriting true s)).
      split; [reflexivity | apply alloc_values].
  - repeat split.
Qed.

Lemma proactive_send_timeline_witness :
  busy resting = false
  /\ messages (final (sendProactiveMessageAuto no_assets_at_all busy_service
                                               resting))
     = messages resting
  /\ filter is_alert
       (trace (sendProactiveMessage no_assets_at_all busy_service resting))
     = [Alert "Error: Error: API Error 503: busy"].
Proof.
  split; [reflexivity |].
  destruct (proactive_send_timeline no_assets_at_all busy_service resting
              eq_refl) as (_ & _ & _ & Hauto & Halert).
  split; assumption.
Defined.

(** X8.  The timer's proactive path never reaches the user and never
    throws: [sendProactiveMessageAuto] and a tick of the proactive check
    always return and show no alert, whatever the service answers.  A tick
    whose should-send query fails or answers no leaves the page state as it
    is. *)
Theorem proactive_tick_is_silent (fetch_head : string -> FetchResult)
    (api : Client.ApiClient) (s : State) :
  (outcome (sendProactiveMessageAuto fetch_head api s) = Returned tt
   /\ filter is_alert (trace (sendProactiveMessageAuto fetch_head api s)) = [])
  /\ (outcome (proactiveCheck fetch_head api s) = Returned tt
      /\ filter is_alert (trace (proactiveCheck fetch_head api s)) = [])
  /\ (Client.shouldSendProactiveMessage api <> Fulfilled true ->
      final (proactiveCheck fetch_head api s) = s).
Proof.
  assert (Hauto :
    outcome (sendProactiveMessageAuto fetch_head api s) = Returned tt
    /\ filter is_alert (trace (sendProactiveMessageAuto fetch_head api s)) = []).
  { rewrite sendProactiveMessageAuto_runs.
    destruct (busy s); [split; reflexivity |].
    destruct (Client.sendProactiveMessage api) as [apiMessages | err];
      [| split; reflexivity].
    unfold outcome, trace. cbn [fst snd filter is_alert].
    rewrite (proj2 (reveal_spec_filter _ _ _)). split; reflexivity. }
  split; [exact Hauto |]. rewrite proactiveCheck_runs.
  destruct (busy s); [repeat split |].
  destruct (Client.shouldSendProactiveMessage api) as [[|] | err].
  - split; [split; [reflexivity |] | intros Hno; now elim Hno].
    unfold trace at 1. cbn [snd filter is_alert]. apply Hauto.
  - repeat split.
  - repeat split.
Qed.

Lemma proactive_tick_is_silent_witness :
  Client.shouldSendProactiveMessage offline_service <> Fulfilled true
  /\ final (proactiveCheck no_assets_at_all offline_service cat_pending)
     = cat_pending.
Proof.
  assert (Hoff : Client.shouldSendProactiveMessage offline_service
                 <> Fulfilled true) by discriminate.
  split; [exact Hoff |].
  exact (proj2 (proj2 (proactive_tick_is_silent no_assets_at_all
                         offline_service cat_pending)) Hoff).
Defined.

(* ===================================================================== *)
(** ** Further properties: a summarization that does not start *)
(* ===================================================================== *)

(** X9.  A summarization the service refuses to start.  [startSummarization]
    returns, [summarizing] is false again, no poll timer is set, the error
    is shown in [summarizeError] and the only request made is the start
    request; the timeline is as it was. *)
Theorem startSummarization_refused (api : Client.ApiClient) (s : State)
    (err : string) :
  Client.startSummarization api = Rejected err ->
  let r := startSummarization api s in
  outcome r = Returned tt
  /\ summarizing (final r) = false
  /\ pollInterval (final r) = pollInterval s
  /\ filter is_set_interval (trace r) = []
  /\ summarizeError (final r) = ("Failed to start summarization: " ++ err)%string
  /\ filter is_request (trace r) = [Request StartSummarization]
  /\ messages (final r) = messages s.
Proof.
  intros Hrefused. cbv zeta.
  unfold startSummarization, toggleMenu, try_catch, bind, modify, await,
    console, emit.
  rewrite Hrefused. repeat split.
Qed.

Lemma startSummarization_refused_witness :
  Client.startSummarization busy_service = Rejected "Error: API Error 503: busy"
  /\ (let r := startSummarization busy_service cat_pending in
      outcome r = Returned tt
      /\ summarizing (final r) = false
      /\ pollInterval (final r) = pollInterval cat_pending
      /\ filter is_set_interval (trace r) = []
      /\ summarizeError (final r)
           = "Failed to start summarization: Error: API Error 503: busy"
      /\ filter is_request (trace r) = [Request StartSummarization]
      /\ messages (final r) = messages cat_pending).
Proof.
  split; [reflexivity |].
  exact (startSummarization_refused busy_service cat_pending
           "Error: API Error 503: busy" eq_refl).
Defined.

(* ===================================================================== *)
(** ** Further properties: the history load *)
(* ===================================================================== *)

Lemma findLast_mood (objs : list Obj) :
  match findLast (fun m => truthy_opt (mood (oval m))) objs with
  | Some o =>
      exists m, mood (oval o) = Some m /\ truthy m = true
                /\ last_mood (map oval objs) = Some m
  | None => last_mood (map oval objs) = None
  end.
Proof.
  unfold findLast, last_mood.
  induction objs as [| o objs IH] using rev_ind; [reflexivity |].
  rewrite rev_app_distr, map_app, fold_left_app. cbn [rev app find map fold_left].
  destruct (mood (oval o)) as [m |] eqn:Hmood; cbn [truthy_opt].
  - destruct (truthy m) eqn:Htruthy.
    + exists m. rewrite Hmood. auto.
    + exact IH.
  - exact IH.
Qed.

(** The [try] block of the history load, run. *)
Lemma history_try_runs (fetch_head : string -> FetchResult)
    (api : Client.ApiClient) (s : State) :
  history_try fetch_head api s =
    match Client.getHistory api with
    | Fulfilled history =>
        let s1 :=
          set_messages (alloc (next_ref s) (flattenMessages_values history))
            (set_next_ref
               (next_ref s + length (flattenMessages_values history)) s) in
        match last_mood (flattenMessages_values history) with
        | Some m =>
            (Returned tt,
             set_avatar (Avatar.mood (fst (get_extension fetch_head m)))
                        (Avatar.extension (fst (get_extension fetch_head m)))
                        s1,
             Request GetHistory
               :: snd (get_extension fetch_head m)
               ++ [SetMood (Avatar.mood (fst (get_extension fetch_head m)))
                           (Avatar.extension (fst (get_extension fetch_head m)));
                   Tick])
        | None => (Returned tt, s1, [Request GetHistory; Tick])
        end
    | Rejected err => (Thrown err, s, [Request GetHistory])
    end.
Proof.
  unfold history_try.
  destruct (Client.getHistory api) as [history | err];
    [| reflexivity].
  erewrite bind_returned by reflexivity. cbv beta.
  erewrite bind_returned by reflexivity. cbv beta.
  erewrite bind_returned by reflexivity. cbv beta.
  pose proof (findLast_mood (alloc (next_ref s)
                                   (flattenMessages_values history)))
    as Hlast.
  rewrite alloc_values in Hlast.
  destruct (findLast _ (alloc (next_ref s) (flattenMessages_values history)))
    as [lastMoodMessage |].
  - destruct Hlast as (m & Hm & Htruthy & ->). rewrite Hm, Htruthy.
    erewrite bind_returned by apply updateMood_runs.
    unfold tick, emit, outcome, final, trace. cbn [fst snd app].
    rewrite <- app_assoc. reflexivity.
  - rewrite Hlast. reflexivity.
Qed.

(** X10.  The history load of [onMount] never throws and shows no alert.
    When the history request is fulfilled the timeline becomes the flattened
    history, whatever it held before, [connectionError] is left alone, and
    the avatar is resolved from the mood of the last bubble that carries
    one, or left alone when none does.  When the request is rejected the
    page state is as it was and [connectionError] holds the "could not get
    messages" text. *)
Theorem loadHistory_outcomes (fetch_head : string -> FetchResult)
    (api : Client.ApiClient) (sh : Shell) :
  let r := loadHistory fetch_head api sh in
  Eff.outcome r = Returned tt
  /\ filter is_alert (Eff.trace r) = []
  /\ match Client.getHistory api with
     | Fulfilled history =>
         map oval (messages (page (Eff.final r)))
           = flattenMessages_values history
         /\ connectionError (Eff.final r) = connectionError sh
         /\ match last_mood (flattenMessages_values history) with
            | Some m =>
                currentMood (page (Eff.final r))
                  = Avatar.mood (fst (get_extension fetch_head m))
                /\ currentExtension (page (Eff.final r))
                     = Avatar.extension (fst (get_extension fetch_head m))
            | None =>
                currentMood (page (Eff.final r)) = currentMood (page sh)
                /\ currentExtension (page (Eff.final r))
                     = currentExtension (page sh)
            end
     | Rejected err =>
         page (Eff.final r) = page sh
         /\ connectionError (Eff.final r) = could_not_get_messages
     end.
Proof.
  cbv zeta. unfold loadHistory, Eff.try_catch, on_page.
  rewrite history_try_runs.
  destruct (Client.getHistory api) as [history | err].
  - cbv zeta.
    destruct (last_mood (flattenMessages_values history)) as [m |].
    + unfold Eff.outcome, Eff.final, Eff.trace. cbn [fst snd].
      split; [reflexivity |]. split.
      * apply filter_none. intros e [<- | He]; [reflexivity |].
        apply in_app_or in He.
        destruct He as [He | [<- | [<- | []]]]; [| reflexivity ..].
        apply get_extension_only_probes in He. destruct He as [url ->].
        reflexivity.
      * cbn. rewrite alloc_values. repeat split.
    + unfold Eff.outcome, Eff.final, Eff.trace. cbn.
      rewrite alloc_values. repeat split.
  - unfold Eff.bind, Eff.emit, Eff.modify, Eff.outcome, Eff.final, Eff.trace.
    cbn. destruct sh. repeat split.
Qed.

(* ===================================================================== *)
(** ** Further properties: the theme *)
(* ===================================================================== *)

(** X11.  The theme survives closing the page.  After [toggleLightMode],
    the class on the document follows [lightMode], and opening the page
    again on the same [localStorage], with a document that does not carry
    the class in its markup, gives back the very same theme state.  Toggling
    twice gives back the former [lightMode]. *)
Theorem theme_survives_reopen (t : Theme.t) :
  reopen false (toggleLightMode t) = toggleLightMode t
  /\ Theme.light_class (toggleLightMode t) = Theme.lightMode (toggleLightMode t)
  /\ Theme.lightMode (toggleLightMode (toggleLightMode t)) = Theme.lightMode t.
Proof.
  unfold reopen, loadTheme, toggleLightMode.
  destruct (Theme.lightMode t); repeat split.
Qed.

(* ===================================================================== *)
(** ** Further properties: the name of a cached attachment *)
(* ===================================================================== *)

Section Split.

Variable sep : ascii -> bool.

Lemma split_on_cons (s : string) :
  exists piece pieces, split_on sep s = piece :: pieces.
Proof.
  destruct s as [| c rest]; cbn [split_on]; [now eexists; eexists |].
  destruct (sep c); [now eexists; eexists |].
  destruct (split_on sep rest); now eexists; eexists.
Qed.

(** A piece holds no separator, and only characters of the string. *)
Lemma split_on_pieces (s piece : string) (c : ascii) :
  In piece (split_on sep s) ->
  In c (list_ascii_of_string piece) ->
  sep c = false /\ In c (list_ascii_of_string s).
Proof.
  revert piece. induction s as [| a rest IH]; intros piece; cbn [split_on].
  - intros [<- | []] [].
  - destruct (sep a) eqn:Ha.
    + intros [<- | Hin] Hc; [destruct Hc |].
      destruct (IH piece Hin Hc) as [Hclean Hfrom].
      split; [exact Hclean | now right].
    + destruct (split_on_cons rest) as (p & ps & Hsplit). rewrite Hsplit in *.
      intros [<- | Hin] Hc.
      * destruct Hc as [<- | Hc]; [split; [exact Ha | now left] |].
        destruct (IH p (or_introl eq_refl) Hc) as [Hclean Hfrom].
        split; [exact Hclean | now right].
      * destruct (IH piece (or_intror Hin) Hc) as [Hclean Hfrom].
        split; [exact Hclean | now right].
Qed.

(** A string without separator is its own only piece. *)
Lemma split_on_clean (s : string) :
  (forall c, In c (list_ascii_of_string s) -> sep c = false) ->
  split_on sep s = [s].
Proof.
  induction s as [| a rest IH]; intros Hclean; [reflexivity |].
  cbn [split_on]. rewrite (Hclean a) by now left.
  rewrite IH by (intros c Hc; apply Hclean; now right). reflexivity.
Qed.

(** Splitting at a separator: the pieces before it, then the pieces after
    it. *)
Lemma split_on_app (before after : string) (c : ascii) :
  sep c = true ->
  split_on sep (before ++ String c after)
    = split_on sep before ++ split_on sep after.
Proof.
  intros Hc. induction before as [| a rest IH]; cbn [append split_on app].
  - now rewrite Hc.
  - rewrite IH. destruct (sep a); [reflexivity |].
    destruct (split_on_cons rest) as (p & ps & ->). reflexivity.
Qed.

Lemma last_app_cons {A : Type} (l1 l2 : list A) (x d : A) :
  last (l1 ++ x :: l2) d = last (x :: l2) d.
Proof.
  induction l1 as [| a l1 IH]; [reflexivity |].
  cbn [app]. rewrite <- IH. cbn [last].
  destruct (l1 ++ x :: l2) eqn:Heq; [| reflexivity].
  now destruct l1.
Qed.

(** [s.split(sep).pop()] for a string that ends with a separator and then
    a run without separators: that run. *)
Lemma last_split_after (before after : string) (c : ascii) :
  sep c = true ->
  (forall ch, In ch (list_ascii_of_string after) -> sep ch = false) ->
  last (split_on sep (before ++ String c after)) "" = after.
Proof.
  intros Hc Hclean. rewrite (split_on_app before after c Hc).
  rewrite (split_on_clean after Hclean). rewrite last_app_cons. reflexivity.
Qed.

Lemma last_in {A : Type} (l : list A) (x : A) (rest : list A) (d : A) :
  l = x :: rest -> In (last l d) l.
Proof.
  intros ->. revert x. induction rest as [| y rest IH]; intros x.
  - now left.
  - right. apply IH.
Qed.

Lemma last_split_piece (s : string) :
  In (last (split_on sep s) "") (split_on sep s).
Proof.
  destruct (split_on_cons s) as (p & ps & Hsplit).
  now apply (last_in _ p ps).
Qed.

End Split.

Lemma or_else_truthy (x fallback : string) :
  fallback <> "" -> or_else x fallback <> "".
Proof.
  intros Hfallback. unfold or_else, truthy.
  destruct (String.eqb_spec x ""); [exact Hfallback | assumption].
Qed.

Lemma or_else_keeps (x fallback : string) : x <> "" -> or_else x fallback = x.
Proof.
  intros Hx. unfold or_else. now rewrite (truthy_nonempty x Hx).
Qed.

(** A decimal numeral holds digits only. *)
Lemma render_number_digits (n : N) (c : ascii) :
  In c (list_ascii_of_string (render_number n)) ->
  is_dot c = false /\ is_path_separator c = false.
Proof.
  unfold render_number.
  assert (Hdigits : forall d, In c (list_ascii_of_string (NilEmpty.string_of_uint d)) ->
                              is_dot c = false /\ is_path_separator c = false).
  { induction d; cbn [NilEmpty.string_of_uint list_ascii_of_string];
      try (intros [<- | Hin]; [split; reflexivity | now apply IHd]).
    intros []. }
  destruct (N.to_uint n) eqn:Huint; try apply Hdigits.
  cbn. intros [<- | []]. split; reflexivity.
Qed.

Lemma in_string_app (a b : string) (c : ascii) :
  In c (list_ascii_of_string (a ++ b)) ->
  In c (list_ascii_of_string a) \/ In c (list_ascii_of_string b).
Proof.
  induction a as [| x a IH]; cbn [append list_ascii_of_string].
  - now right.
  - intros [<- | Hin]; [left; now left |].
    destruct (IH Hin); [left; now right | now right].
Qed.

(** The extension taken from the file picked. *)
Lemma extension_of_clean (filePath : string) :
  extension_of (original_filename filePath) <> ""
  /\ forall c,
       In c (list_ascii_of_string (extension_of (original_filename filePath))) ->
       is_dot c = false /\ is_path_separator c = false.
Proof.
  split; [apply or_else_truthy; discriminate |].
  intros c Hc. unfold extension_of, or_else in Hc.
  destruct (truthy (last (split_on is_dot (original_filename filePath)) ""));
    [| cbn in Hc; repeat destruct Hc as [<- | Hc]; try (split; reflexivity);
       contradiction].
  destruct (split_on_pieces is_dot _ _ c
              (last_split_piece is_dot (original_filename filePath)) Hc)
    as [Hdot Hfrom].
  split; [exact Hdot |].
  unfold original_filename, or_else in Hfrom.
  destruct (truthy (last (split_on is_path_separator filePath) ""));
    [| cbn in Hfrom; repeat destruct Hfrom as [<- | Hfrom];
       try reflexivity; contradiction].
  now destruct (split_on_pieces is_path_separator _ _ c
                  (last_split_piece is_path_separator filePath) Hfrom).
Qed.

(** X12.  The name under which [attachImage] caches a picture is the
    timestamp, one dot, and an extension: the extension is not empty and
    holds no dot, and the whole name holds no [/] and no [\], whatever the
    path picked. *)
Theorem cache_filename_is_flat (timestamp : N) (filePath : string) :
  (exists ext,
     cache_filename timestamp filePath
       = (render_number timestamp ++ "." ++ ext)%string
     /\ ext <> ""
     /\ forall c, In c (list_ascii_of_string ext) -> is_dot c = false)
  /\ (forall c, In c (list_ascii_of_string (cache_filename timestamp filePath)) ->
                is_path_separator c = false).
Proof.
  destruct (extension_of_clean filePath) as [Hne Hclean]. split.
  - exists (extension_of (original_filename filePath)).
    split; [reflexivity |]. split; [exact Hne |].
    intros c Hc. now apply Hclean.
  - intros c Hc. unfold cache_filename in Hc.
    apply in_string_app in Hc. destruct Hc as [Hc | Hc].
    + now apply (render_number_digits timestamp).
    + cbn [append list_ascii_of_string] in Hc.
      destruct Hc as [<- | Hc]; [reflexivity | now apply Hclean].
Qed.

(** X13.  The extension kept for a picked file.  For a path that ends, after
    a [/] or a [\], with a name made of a stem, a dot and an extension
    without dot, the cached name is the timestamp with that extension.  A
    last component without any dot is taken whole as the extension, and a
    path that ends with a separator gets [png]. *)
Theorem cache_filename_extension (timestamp : N) (dir : string)
    (separator : ascii) :
  is_path_separator separator = true ->
  (forall stem ext,
     ext <> "" ->
     (forall c, In c (list_ascii_of_string (stem ++ "." ++ ext)) ->
                is_path_separator c = false) ->
     (forall c, In c (list_ascii_of_string ext) -> is_dot c = false) ->
     cache_filename timestamp (dir ++ String separator (stem ++ "." ++ ext))
       = (render_number timestamp ++ "." ++ ext)%string)
  /\ (forall name,
        name <> "" ->
        (forall c, In c (list_ascii_of_string name) ->
                   is_path_separator c = false /\ is_dot c = false) ->
        cache_filename timestamp (dir ++ String separator name)
          = (render_number timestamp ++ "." ++ name)%string)
  /\ cache_filename timestamp (dir ++ String separator "")
       = (render_number timestamp ++ ".png")%string.
Proof.
  intros Hsep. split; [| split].
  - intros stem ext Hext Hbase Hclean. unfold cache_filename. do 2 f_equal.
    unfold original_filename.
    rewrite (last_split_after is_path_separator dir _ separator Hsep Hbase).
    rewrite or_else_keeps by (destruct stem; discriminate).
    unfold extension_of.
    change (stem ++ "." ++ ext)%string with (stem ++ String "." ext)%string.
    rewrite (last_split_after is_dot stem ext "." eq_refl Hclean).
    now apply or_else_keeps.
  - intros name Hname Hclean. unfold cache_filename. do 2 f_equal.
    unfold original_filename.
    rewrite (last_split_after is_path_separator dir name separator Hsep)
      by (intros c Hc; now apply Hclean).
    rewrite (or_else_keeps _ _ Hname). unfold extension_of.
    rewrite (split_on_clean is_dot name) by (intros c Hc; now apply Hclean).
    cbn [last]. now apply or_else_keeps.
  - unfold cache_filename. do 2 f_equal. unfold original_filename.
    rewrite (last_split_after is_path_separator dir "" separator Hsep)
      by (intros c []).
    reflexivity.
Qed.

Lemma cache_filename_extension_witness :
  is_path_separator "/" = true
  /\ cache_filename 1700000000000 "/home/me/Pictures/cat.final.jpeg"
     = "1700000000000.jpeg".
Proof.
  split; [reflexivity |].
  apply (proj1 (cache_filename_extension 1700000000000 "/home/me/Pictures"
                  "/" eq_refl) "cat.final" "jpeg").
  - discriminate.
  - intros c Hc. cbn in Hc.
    repeat (destruct Hc as [<- | Hc]; [reflexivity |]). contradiction.
  - intros c Hc. cbn in Hc.
    repeat (destruct Hc as [<- | Hc]; [reflexivity |]). contradiction.
Defined.

(* ===================================================================== *)
(** ** Further properties: attaching a picture *)
(* ===================================================================== *)

Section Attaching.

Variable host : Host.
Variable JSON_parse : string -> option ImageData.

Lemma attachImage_runs (s : State) :
  attachImage host s =
    let failed err :=
      (Returned tt, s,
       [Console ("Failed to pick image: " ++ err);
        Alert ("Failed to select image: " ++ err)]) in
    match open_dialog host with
    | Rejected err => failed err
    | Fulfilled None => (Returned tt, s, [])
    | Fulfilled (Some path) =>
        if truthy path
        then
          match read_file_as_base64 host path with
          | Rejected err => failed err
          | Fulfilled base64 =>
              match save_image_to_cache host
                      (cache_filename (now host) path) base64 with
              | Rejected err => failed err
              | Fulfilled _ =>
                  (Returned tt,
                   set_attachedImage
                     (Some (JSON_stringify host
                              {| filename := cache_filename (now host) path;
                                 data := base64 |})) s,
                   [])
              end
          end
        else (Returned tt, s, [])
    end.
Proof.
  unfold attachImage, try_catch, bind, settled, console, alert, emit, modify,
    ret.
  destruct (open_dialog host) as [[path |] | err]; try reflexivity.
  destruct (truthy path); [| reflexivity].
  destruct (read_file_as_base64 host path) as [base64 | err]; [| reflexivity].
  destruct (save_image_to_cache host _ base64) as [[] | err]; reflexivity.
Qed.

Lemma getAttachmentPreview_runs (s : State) :
  getAttachmentPreview host JSON_parse s =
    match attachedImage s with
    | Some json =>
        if truthy json
        then
          match JSON_parse json with
          | Some imageData =>
              match get_image_cache_path host (filename imageData) with
              | Fulfilled cachePath =>
                  (Returned (convertFileSrc host cachePath), s, [])
              | Rejected err =>
                  (Returned "", s,
                   [Console ("Failed to get image from cache: " ++ err)])
              end
          | None => (Returned "", s, [])
          end
        else (Returned "", s, [])
    | None => (Returned "", s, [])
    end.
Proof.
  unfold getAttachmentPreview, getImageSrc, try_catch, bind, get, parse,
    settled, console, emit, ret.
  destruct (attachedImage s) as [json |]; [| reflexivity].
  destruct (truthy json); [| reflexivity].
  destruct (JSON_parse json) as [imageData |]; [| reflexivity].
  destruct (get_image_cache_path host (filename imageData)); reflexivity.
Qed.

End Attaching.

(** X14.  [attachImage] never throws.  When the dialog is cancelled nothing
    happens.  When the file is read and cached, the pending attachment
    becomes the serialized [{ filename, data }] of the cached name and the
    bytes read, replacing any former one, and nothing else changes.  When
    the dialog, the read or the save fails, the state, with any former
    attachment, is as it was and one alert shows the error. *)
Theorem attachImage_outcomes (host : Host) (s : State) :
  let r := attachImage host s in
  outcome r = Returned tt
  /\ (open_dialog host = Fulfilled None -> final r = s /\ trace r = [])
  /\ (forall path base64,
        open_dialog host = Fulfilled (Some path) ->
        path <> "" ->
        read_file_as_base64 host path = Fulfilled base64 ->
        save_image_to_cache host (cache_filename (now host) path) base64
          = Fulfilled tt ->
        final r =
          set_attachedImage
            (Some (JSON_stringify host
                     {| filename := cache_filename (now host) path;
                        data := base64 |})) s
        /\ trace r = [])
  /\ (forall err,
        open_dialog host = Rejected err
        \/ (exists path,
              open_dialog host = Fulfilled (Some path) /\ path <> ""
              /\ (read_file_as_base64 host path = Rejected err
                  \/ exists base64,
                       read_file_as_base64 host path = Fulfilled base64
                       /\ save_image_to_cache host
                            (cache_filename (now host) path) base64
                          = Rejected err)) ->
        final r = s
        /\ filter is_alert (trace r)
             = [Alert ("Failed to select image: " ++ err)%string]).
Proof.
  cbv zeta. rewrite attachImage_runs. cbv zeta.
  split; [| split; [| split]].
  - destruct (open_dialog host) as [[path |] | err]; try reflexivity.
    destruct (truthy path); [| reflexivity].
    destruct (read_file_as_base64 host path) as [base64 | err]; [| reflexivity].
    destruct (save_image_to_cache host _ base64); reflexivity.
  - intros ->. split; reflexivity.
  - intros path base64 -> Hpath -> ->.
    rewrite (truthy_nonempty path Hpath). split; reflexivity.
  - intros err [-> | (path & -> & Hpath & Hfail)]; [split; reflexivity |].
    rewrite (truthy_nonempty path Hpath).
    destruct Hfail as [-> | (base64 & -> & ->)]; split; reflexivity.
Qed.

Lemma attachImage_outcomes_witness :
  (open_dialog picking_cat = Fulfilled (Some "/home/me/Pictures/cat.png")
   /\ "/home/me/Pictures/cat.png" <> ""
   /\ read_file_as_base64 picking_cat "/home/me/Pictures/cat.png"
        = Fulfilled "iVBORw0KGgo="
   /\ save_image_to_cache picking_cat
        (cache_filename (now picking_cat) "/home/me/Pictures/cat.png")
        "iVBORw0KGgo=" = Fulfilled tt)
  /\ final (attachImage picking_cat typed_hello)
     = set_attachedImage (Some cat_json) typed_hello.
Proof.
  assert (Hpath : "/home/me/Pictures/cat.png" <> "") by discriminate.
  split; [repeat split; exact Hpath |].
  exact (proj1 (proj1 (proj2 (proj2 (attachImage_outcomes picking_cat
                                       typed_hello)))
                  "/home/me/Pictures/cat.png" "iVBORw0KGgo="
                  eq_refl Hpath eq_refl eq_refl)).
Defined.

(** X15.  What is attached is what is sent.  After an [attachImage] that
    read and cached a file, on a page that is not busy and with a text that
    is not blank, provided [JSON.parse] reads back what [JSON.stringify]
    wrote, [send] first shows the user message with the cached name as
    [image_path] and then makes one request carrying the text and exactly
    that image. *)
Theorem attach_then_send (fetch_head : string -> FetchResult)
    (JSON_parse : string -> option ImageData) (api : Client.ApiClient)
    (host : Host) (s : State) (path base64 : string) :
  let imageData :=
    {| filename := cache_filename (now host) path; data := base64 |} in
  open_dialog host = Fulfilled (Some path) ->
  path <> "" ->
  read_file_as_base64 host path = Fulfilled base64 ->
  save_image_to_cache host (cache_filename (now host) path) base64
    = Fulfilled tt ->
  JSON_stringify host imageData <> "" ->
  JSON_parse (JSON_stringify host imageData) = Some imageData ->
  trim (message s) <> "" ->
  puriraWriting s = false ->
  summarizing s = false ->
  let attached := final (attachImage host s) in
  attachment_ok JSON_parse attached
  /\ exists rest,
       trace (send fetch_head JSON_parse api attached) =
         Push {| oref := next_ref s;
                 oval := {| role := "user"; content := trim (message s);
                            mood := None;
                            image_path :=
                              Some (cache_filename (now host) path) |} |}
           :: Tick
           :: Request (SendUnifiedMessage (trim (message s)) [imageData])
           :: rest.
Proof.
  intros imageData Hopen Hpath Hread Hsave Hne Hround Htext Hw Hs attached.
  assert (Hattached :
    attached = set_attachedImage (Some (JSON_stringify host imageData)) s).
  { unfold attached. rewrite attachImage_runs. cbv zeta.
    rewrite Hopen, (truthy_nonempty path Hpath), Hread, Hsave. reflexivity. }
  assert (Hok : attachment_ok JSON_parse attached).
  { rewrite Hattached. unfold attachment_ok. cbn [attachedImage set_attachedImage].
    split; [exact Hne | rewrite Hround; discriminate]. }
  split; [exact Hok |].
  assert (Hguard : send_rejects attached = false).
  { rewrite Hattached. apply send_accepts; assumption. }
  destruct (attachment_ok_filename JSON_parse attached Hok) as [Hname Himages].
  rewrite (send_runs fetch_head JSON_parse api attached _ _ Hguard Hname Himages).
  cbv zeta.
  assert (Hfile : attached_filename JSON_parse attached
                  = Some (cache_filename (now host) path)).
  { rewrite Hattached. unfold attached_filename.
    cbn [attachedImage set_attachedImage]. rewrite Hround. reflexivity. }
  assert (Himgs : attached_images JSON_parse attached = [imageData]).
  { rewrite Hattached. unfold attached_images.
    cbn [attachedImage set_attachedImage]. rewrite Hround. reflexivity. }
  rewrite Hfile, Himgs. unfold optimistic_message.
  replace (next_ref attached) with (next_ref s) by (now rewrite Hattached).
  replace (message attached) with (message s) by (now rewrite Hattached).
  destruct (Client.sendUnifiedMessage api (trim (message s)) [imageData]);
    cbn [trace snd app]; eexists; reflexivity.
Qed.

Lemma attach_then_send_witness :
  (open_dialog picking_cat = Fulfilled (Some "/home/me/Pictures/cat.png")
   /\ trim (message typed_hello) <> ""
   /\ parse_cat (JSON_stringify picking_cat cat_image) = Some cat_image)
  /\ exists rest,
       trace (send no_assets_at_all parse_cat greeting_service
                   (final (attachImage picking_cat typed_hello))) =
         Push {| oref := 0;
                 oval := {| role := "user"; content := "hello"; mood := None;
                            image_path := Some "1700000000000.png" |} |}
           :: Tick
           :: Request (SendUnifiedMessage "hello" [cat_image])
           :: rest.
Proof.
  assert (Hpath : "/home/me/Pictures/cat.png" <> "") by discriminate.
  assert (Htext : trim (message typed_hello) <> "") by discriminate.
  assert (Hne : JSON_stringify picking_cat cat_image <> "") by discriminate.
  split; [repeat split; exact Htext |].
  exact (proj2 (attach_then_send no_assets_at_all parse_cat greeting_service
                  picking_cat typed_hello "/home/me/Pictures/cat.png"
                  "iVBORw0KGgo=" eq_refl Hpath eq_refl eq_refl Hne eq_refl
                  Htext eq_refl eq_refl)).
Defined.

(** X16.  The preview of the pending attachment never throws, never alerts
    and changes nothing.  Its source is empty when there is no attachment,
    when the attachment does not parse or when the cache lookup fails; a
    source that is not empty is the converted cache path of the attached
    file. *)
Theorem getAttachmentPreview_safe (host : Host)
    (JSON_parse : string -> option ImageData) (s : State) :
  let r := getAttachmentPreview host JSON_parse s in
  final r = s
  /\ filter is_alert (trace r) = []
  /\ exists src,
       outcome r = Returned src
       /\ (attachedImage s = None -> src = "")
       /\ (src <> "" ->
           exists json imageData cachePath,
             attachedImage s = Some json
             /\ JSON_parse json = Some imageData
             /\ get_image_cache_path host (filename imageData)
                = Fulfilled cachePath
             /\ src = convertFileSrc host cachePath).
Proof.
  cbv zeta. rewrite getAttachmentPreview_runs.
  assert (Hempty : forall (t : list Event),
    filter is_alert t = [] ->
    final (Returned "", s, t) = s
    /\ filter is_alert (trace (Returned "", s, t)) = []
    /\ exists src,
         outcome (Returned "", s, t) = Returned src
         /\ (attachedImage s = None -> src = "")
         /\ (src <> "" ->
             exists json imageData cachePath,
               attachedImage s = Some json
               /\ JSON_parse json = Some imageData
               /\ get_image_cache_path host (filename imageData)
                  = Fulfilled cachePath
               /\ src = convertFileSrc host cachePath)).
  { intros t Ht. split; [reflexivity |]. split; [exact Ht |].
    exists "". split; [reflexivity |]. split; [reflexivity |].
    intros H. now elim H. }
  destruct (attachedImage s) as [json |] eqn:Hpending;
    [| now apply Hempty].
  destruct (truthy json); [| now apply Hempty].
  destruct (JSON_parse json) as [imageData |] eqn:Hparse;
    [| now apply Hempty].
  destruct (get_image_cache_path host (filename imageData))
    as [cachePath | err] eqn:Hcache; [| now apply Hempty].
  split; [reflexivity |]. split; [reflexivity |].
  exists (convertFileSrc host cachePath).
  split; [reflexivity |]. split; [discriminate |].
  intros _. exists json, imageData, cachePath. auto.
Qed.

(* ===================================================================== *)
(** ** Further properties: the client on the wire *)
(* ===================================================================== *)

Lemma lookup_set_key_same (k v : string) (o : JsObject) :
  lookup k (set_key k v o) = Some v.
Proof.
  induction o as [| [k' v'] o IH]; cbn [set_key lookup].
  - now rewrite String.eqb_refl.
  - destruct (String.eqb_spec k' k) as [-> | Hne]; cbn [lookup].
    + now rewrite String.eqb_refl.
    + apply String.eqb_neq in Hne. now rewrite Hne.
Qed.

Lemma lookup_set_key_other (k k' v : string) (o : JsObject) :
  k' <> k -> lookup k (set_key k' v o) = lookup k o.
Proof.
  intros Hne. pose proof (proj2 (String.eqb_neq k' k) Hne) as Hfalse.
  induction o as [| [k1 v1] o IH]; cbn [set_key lookup].
  - now rewrite Hfalse.
  - destruct (String.eqb_spec k1 k') as [-> | Hne1]; cbn [lookup].
    + now rewrite Hfalse.
    + now rewrite IH.
Qed.

Lemma lookup_absent (k : string) (o : JsObject) :
  ~ In k (map fst o) -> lookup k o = None.
Proof.
  induction o as [| [k' v'] o IH]; intros Hnot; [reflexivity |].
  cbn [lookup]. destruct (String.eqb_spec k' k) as [-> | Hne].
  - exfalso. apply Hnot. now left.
  - apply IH. intros Hin. apply Hnot. now right.
Qed.

(** [{ ...base, ...extra }[k]]: the value of [extra] when it has the key,
    that of [base] otherwise. *)
Lemma lookup_spread (k : string) (base extra : JsObject) :
  NoDup (map fst extra) ->
  lookup k (spread base extra) =
    match lookup k extra with
    | Some v => Some v
    | None => lookup k base
    end.
Proof.
  unfold spread. revert base.
  induction extra as [| [k1 v1] extra IH]; intros base Hnodup; [reflexivity |].
  cbn [fold_left fst snd map] in *. inversion Hnodup as [| ? ? Hnotin Hrest]; subst.
  rewrite (IH _ Hrest). cbn [lookup].
  destruct (String.eqb_spec k1 k) as [-> | Hne].
  - rewrite (lookup_absent k extra Hnotin). apply lookup_set_key_same.
  - destruct (lookup k extra); [reflexivity |].
    now apply lookup_set_key_other.
Qed.

Section Wire.

Variable net : ApiClient.Network.

Lemma request_runs {T : Type} (json : string -> Promise T)
    (endpoint : string) (options : Http.RequestInit) (c : ApiClient.Config) :
  ApiClient.request net json endpoint options c =
    match ApiClient.fetch net (request_of c endpoint options) with
    | Fulfilled response =>
        if Http.ok response
        then
          match json (Http.text response) with
          | Fulfilled a =>
              (Returned a, c,
               [ApiClient.Sent (request_of c endpoint options)])
          | Rejected err =>
              (Thrown err, c,
               [ApiClient.Sent (request_of c endpoint options)])
          end
        else
          (Thrown (api_error response), c,
           [ApiClient.Sent (request_of c endpoint options)])
    | Rejected err =>
        (Thrown err, c, [ApiClient.Sent (request_of c endpoint options)])
    end.
Proof.
  unfold ApiClient.request, Eff.bind, Eff.get, ApiClient.send_request,
    Eff.throw, Eff.settle, request_of, api_error.
  destruct (ApiClient.fetch net _) as [response | err]; [| reflexivity].
  destruct (Http.ok response); cbn [negb]; [| reflexivity].
  destruct (json (Http.text response)); reflexivity.
Qed.

Lemma request_authenticated {T : Type} (json : string -> Promise T)
    (path : string) (options : Http.RequestInit) (c : ApiClient.Config) :
  NoDup (map fst (Http.init_headers options)) ->
  lookup "Authorization" (Http.init_headers options) = None ->
  authenticated c (ApiClient.request net json ("/api/" ++ path) options c).
Proof.
  intros Hnodup Hcaller. rewrite request_runs.
  assert (Hkey :
    lookup "Authorization"
      (Http.headers (request_of c ("/api/" ++ path) options))
    = Some ("Bearer " ++ ApiClient.apiKey c)%string).
  { unfold request_of. cbn [Http.headers].
    rewrite (lookup_spread _ _ _ Hnodup), Hcaller. reflexivity. }
  destruct (ApiClient.fetch net _) as [response | err].
  - destruct (Http.ok response);
      [destruct (json (Http.text response)) |].
    all: split; [reflexivity |].
    all: exists (request_of c ("/api/" ++ path) options), path; auto.
  - split; [reflexivity |].
    exists (request_of c ("/api/" ++ path) options), path. auto.
Qed.

End Wire.

(** X17.  [loadConfig] never throws and makes one request, for
    [/config.json].  The two fields of the client become those of the
    configuration when it is served and decodes; they are left as they were
    when the response is not [ok], silently, and when the request fails or
    the body is not JSON, with a warning. *)
Theorem loadConfig_outcomes (net : ApiClient.Network) (c : ApiClient.Config) :
  let r := ApiClient.loadConfig net c in
  Eff.outcome r = Returned tt
  /\ filter ApiClient.is_sent (Eff.trace r) = [ApiClient.Sent config_request]
  /\ match ApiClient.fetch net config_request with
     | Fulfilled response =>
         if Http.ok response
         then
           match ApiClient.json_config net (Http.text response) with
           | Fulfilled config =>
               Eff.final r = config
               /\ Eff.trace r = [ApiClient.Sent config_request]
           | Rejected err =>
               Eff.final r = c
               /\ Eff.trace r =
                    [ApiClient.Sent config_request;
                     ApiClient.Warn
                       ("Failed to load config.json, using defaults: " ++ err)]
           end
         else Eff.final r = c /\ Eff.trace r = [ApiClient.Sent config_request]
     | Rejected err =>
         Eff.final r = c
         /\ Eff.trace r =
              [ApiClient.Sent config_request;
               ApiClient.Warn
                 ("Failed to load config.json, using defaults: " ++ err)]
     end.
Proof.
  cbv zeta.
  unfold ApiClient.loadConfig, Eff.try_catch, Eff.bind, ApiClient.send_request,
    Eff.settle, Eff.put, Eff.ret, Eff.emit.
  fold config_request.
  destruct (ApiClient.fetch net config_request) as [response | err];
    [| repeat split].
  destruct (Http.ok response); [| repeat split].
  destruct (ApiClient.json_config net (Http.text response)); repeat split.
Qed.

(** X18.  What [request] puts on the wire.  It makes exactly one request and
    leaves the fields of the client alone.  The request goes to the server
    URL followed by the endpoint, with the method and the body of the
    options.  Its [Authorization] header is the bearer key of the client,
    unless the options carry an [Authorization] header of their own, which
    then wins; every other header is the one of the options. *)
Theorem request_on_the_wire (net : ApiClient.Network) (T : Type)
    (json : string -> Promise T) (endpoint : string)
    (options : Http.RequestInit) (c : ApiClient.Config) :
  NoDup (map fst (Http.init_headers options)) ->
  let r := ApiClient.request net json endpoint options c in
  Eff.final r = c
  /\ exists request,
       Eff.trace r = [ApiClient.Sent request]
       /\ Http.url request = (ApiClient.serverUrl c ++ endpoint)%string
       /\ Http.method request = Http.init_method options
       /\ Http.body request = Http.init_body options
       /\ lookup "Authorization" (Http.headers request) =
            match lookup "Authorization" (Http.init_headers options) with
            | Some own => Some own
            | None => Some ("Bearer " ++ ApiClient.apiKey c)%string
            end
       /\ forall k, k <> "Authorization" ->
            lookup k (Http.headers request)
              = lookup k (Http.init_headers options).
Proof.
  intros Hnodup. cbv zeta. rewrite request_runs.
  assert (Hreq :
    Http.url (request_of c endpoint options)
      = (ApiClient.serverUrl c ++ endpoint)%string
    /\ Http.method (request_of c endpoint options) = Http.init_method options
    /\ Http.body (request_of c endpoint options) = Http.init_body options
    /\ lookup "Authorization" (Http.headers (request_of c endpoint options)) =
         match lookup "Authorization" (Http.init_headers options) with
         | Some own => Some own
         | None => Some ("Bearer " ++ ApiClient.apiKey c)%string
         end
    /\ forall k, k <> "Authorization" ->
         lookup k (Http.headers (request_of c endpoint options))
           = lookup k (Http.init_headers options)).
  { unfold request_of. cbn [Http.url Http.method Http.body Http.headers].
    repeat split.
    - rewrite (lookup_spread _ _ _ Hnodup). reflexivity.
    - intros k Hk. rewrite (lookup_spread _ _ _ Hnodup). cbn [lookup].
      destruct (lookup k (Http.init_headers options)); [reflexivity |].
      destruct (String.eqb_spec "Authorization" k); [now elim Hk | reflexivity]. }
  destruct (ApiClient.fetch net _) as [response | err].
  - destruct (Http.ok response);
      [destruct (json (Http.text response)) |].
    all: split; [reflexivity |].
    all: exists (request_of c endpoint options); split; [reflexivity | exact Hreq].
  - split; [reflexivity |].
    exists (request_of c endpoint options). split; [reflexivity | exact Hreq].
Qed.

Lemma request_on_the_wire_witness :
  NoDup (map fst (Http.init_headers own_credential))
  /\ exists request,
       Eff.trace (ApiClient.request summarizing_network
                    (ApiClient.json_messages summarizing_network)
                    "/api/history" own_credential ApiClient.defaults)
         = [ApiClient.Sent request]
       /\ Http.url request = "http://localhost:3000/api/history"
       /\ lookup "Authorization" (Http.headers request) = Some "Basic abc".
Proof.
  assert (Hnodup : NoDup (map fst (Http.init_headers own_credential))).
  { constructor; [intros [] | constructor]. }
  split; [exact Hnodup |].
  destruct (request_on_the_wire summarizing_network _
              (ApiClient.json_messages summarizing_network)
              "/api/history" own_credential ApiClient.defaults Hnodup)
    as (_ & request & Htrace & Hurl & _ & _ & Hauth & _).
  exists request. repeat split; assumption.
Defined.

(** X19.  Every method of the client makes one request, to a path under
    [/api/] of the server, carrying the key of the client as bearer
    credential, and leaves the fields of the client alone, whatever the
    network answers. *)
Theorem every_method_authenticates (net : ApiClient.Network)
    (c : ApiClient.Config) (text : string) (images : list ImageData) :
  authenticated c (ApiClient.getHistory net c)
  /\ authenticated c (ApiClient.startSummarization net c)
  /\ authenticated c (ApiClient.getSummarizationStatus net c)
  /\ authenticated c (ApiClient.shouldSendProactiveMessage net c)
  /\ authenticated c (ApiClient.sendProactiveMessage net c)
  /\ authenticated c (ApiClient.sendUnifiedMessage net text images c)
  /\ authenticated c (ApiClient.triggerWebSearch net c)
  /\ authenticated c (ApiClient.triggerReminisce net c).
Proof.
  assert (Hnone : NoDup (map fst (Http.init_headers ApiClient.no_options)))
    by constructor.
  assert (Hpost : forall body,
            NoDup (map fst (Http.init_headers (ApiClient.post body)))).
  { intros body. constructor; [intros [] | constructor]. }
  repeat match goal with |- _ /\ _ => split end.
  all: try (apply (request_authenticated net _ _ ApiClient.no_options c Hnone);
            reflexivity).
  all: apply (request_authenticated net _ _ (ApiClient.post _) c (Hpost _));
         reflexivity.
Qed.

(* ===================================================================== *)
(** ** Further properties: errors of the service, from the wire to the user *)
(* ===================================================================== *)

Lemma starts_with_app (p rest : string) : starts_with p (p ++ rest) = true.
Proof.
  induction p as [| c p IH]; [reflexivity |].
  cbn [append starts_with]. now rewrite Ascii.eqb_refl.
Qed.

Lemma includes_here (s p : string) :
  starts_with p s = true -> includes s p = true.
Proof.
  intros Hstart. destruct s; cbn [includes]; now rewrite Hstart.
Qed.

Lemma includes_app_r (a b p : string) :
  includes b p = true -> includes (a ++ b) p = true.
Proof.
  intros Hb. induction a as [| c a IH]; [exact Hb |].
  cbn [append includes]. rewrite IH. apply orb_true_r.
Qed.

Lemma includes_middle (a p b : string) : includes (a ++ p ++ b) p = true.
Proof.
  apply includes_app_r, includes_here, starts_with_app.
Qed.

Lemma rolled_back_restores (text : string) (imageFilename : option string)
    (s : State) :
  messages (rolled_back (snapshot_of s)
                        (optimistic_state text imageFilename s)) = messages s
  /\ attachedImage (rolled_back (snapshot_of s)
                                (optimistic_state text imageFilename s))
     = attachedImage s.
Proof.
  unfold rolled_back, snapshot_of, optimistic_state.
  cbn [messagesBeforeSend hadAttachment attachmentData].
  assert (Hcut : firstn (length (messages s))
                   (messages s ++ [optimistic_message text imageFilename s])
                 = messages s).
  { rewrite firstn_app, Nat.sub_diag, firstn_all. cbn [firstn].
    apply app_nil_r. }
  destruct (attachedImage s) as [json |] eqn:Hpending; cbn; now rewrite Hcut.
Qed.

(** X20.  A [503] of the server reaches the user as the summarization
    message.  With the page talking to the client of [api.ts], when the
    unified-message request of an accepted send is answered with status 503,
    the only alert is the "summarization in progress" text, whatever the
    body of the response, and the timeline and the pending attachment are
    as before the send. *)
Theorem server_503_reaches_user (fetch_head : string -> FetchResult)
    (JSON_parse : string -> option ImageData) (net : ApiClient.Network)
    (s : State) (response : Http.Response) :
  trim (message s) <> "" ->
  puriraWriting s = false ->
  summarizing s = false ->
  attachment_ok JSON_parse s ->
  ApiClient.fetch net
    (request_of (ApiClient.configured net) "/api/message"
       (ApiClient.post
          (ApiClient.stringify_message net (trim (message s))
                                       (attached_images JSON_parse s))))
    = Fulfilled response ->
  Http.ok response = false ->
  Http.status response = 503%N ->
  let r := send fetch_head JSON_parse (ApiClient.api net) s in
  filter is_alert (trace r)
    = [Alert "Cannot send messages while summarization is in progress. Please wait."]
  /\ messages (final r) = messages s
  /\ attachedImage (final r) = attachedImage s.
Proof.
  intros Htext Hw Hs Hatt Hfetch Hok Hstatus.
  pose proof (send_accepts s Htext Hw Hs) as Hguard.
  destruct (attachment_ok_filename JSON_parse s Hatt) as [Hname Himages].
  cbv zeta.
  rewrite (send_runs fetch_head JSON_parse (ApiClient.api net) s _ _
             Hguard Hname Himages).
  cbv zeta.
  assert (Hrejected :
    Client.sendUnifiedMessage (ApiClient.api net) (trim (message s))
                              (attached_images JSON_parse s)
    = Rejected (api_error response)).
  { cbn [Client.sendUnifiedMessage ApiClient.api].
    unfold ApiClient.sendUnifiedMessage. rewrite request_runs, Hfetch, Hok.
    reflexivity. }
  rewrite Hrejected.
  assert (Hmentions : includes (api_error response) "503" = true).
  { unfold api_error. rewrite Hstatus.
    change (render_number 503) with "503".
    apply (includes_middle "Error: API Error " "503"). }
  unfold final, trace. cbn [fst snd filter is_alert app].
  unfold send_alert_text. rewrite Hmentions. cbn [orb].
  split; [reflexivity |].
  cbn [set_puriraWriting messages attachedImage].
  apply rolled_back_restores.
Qed.

Lemma server_503_reaches_user_witness :
  (trim (message cat_pending) <> ""
   /\ attachment_ok parse_cat cat_pending
   /\ ApiClient.fetch summarizing_network
        (request_of (ApiClient.configured summarizing_network) "/api/message"
           (ApiClient.post
              (ApiClient.stringify_message summarizing_network
                 (trim (message cat_pending))
                 (attached_images parse_cat cat_pending))))
      = Fulfilled {| Http.ok := false; Http.status := 503;
                     Http.text := "summarization in progress" |})
  /\ (let r := send no_assets_at_all parse_cat
                    (ApiClient.api summarizing_network) cat_pending in
      filter is_alert (trace r)
        = [Alert "Cannot send messages while summarization is in progress. Please wait."]
      /\ messages (final r) = messages cat_pending
      /\ attachedImage (final r) = attachedImage cat_pending).
Proof.
  assert (Htext : trim (message cat_pending) <> "") by discriminate.
  assert (Hatt : attachment_ok parse_cat cat_pending)
    by (split; discriminate).
  split; [split; [exact Htext | split; [exact Hatt | reflexivity]] |].
  exact (server_503_reaches_user no_assets_at_all parse_cat summarizing_network
           cat_pending _ Htext eq_refl eq_refl Hatt eq_refl eq_refl eq_refl).
Defined.

(** X21.  Too little history reaches the user as such.  With the page
    talking to the client of [api.ts] and not busy, when the reminisce
    request is answered with a response that is not [ok] and whose body
    mentions [Not enough messages], the only alert is the "need at least 10"
    text, and the timeline is as it was. *)
Theorem short_history_reaches_user (net : ApiClient.Network) (s : State)
    (response : Http.Response) :
  busy s = false ->
  ApiClient.fetch net
    (request_of (ApiClient.configured net) "/api/background-action/reminisce"
       (ApiClient.post "{}"))
    = Fulfilled response ->
  Http.ok response = false ->
  includes (Http.text response) "Not enough messages" = true ->
  let r := triggerReminisce (ApiClient.api net) s in
  outcome r = Returned tt
  /\ filter is_alert (trace r)
       = [Alert "Not enough messages to reminisce about (need at least 10)"]
  /\ messages (final r) = messages s.
Proof.
  intros Hbusy Hfetch Hok Hbody. cbv zeta.
  assert (Hrejected :
    Client.triggerReminisce (ApiClient.api net) = Rejected (api_error response)).
  { cbn [Client.triggerReminisce ApiClient.api].
    unfold ApiClient.triggerReminisce. rewrite request_runs, Hfetch, Hok.
    reflexivity. }
  assert (Hmentions :
    includes (api_error response) "Not enough messages" = true).
  { unfold api_error. do 3 apply includes_app_r. exact Hbody. }
  unfold triggerReminisce, toggleMenu, try_catch_finally, try_finally,
    try_catch, bind, get, modify, await, console, alert, emit,
    outcome, final, trace.
  change (busy (set_menuOpen (negb (menuOpen s)) s)) with (busy s).
  rewrite Hbusy, Hrejected, Hmentions. repeat split.
Qed.

Lemma short_history_reaches_user_witness :
  (busy resting = false
   /\ includes "Not enough messages in history" "Not enough messages" = true)
  /\ filter is_alert
       (trace (triggerReminisce (ApiClient.api short_history_network) resting))
     = [Alert "Not enough messages to reminisce about (need at least 10)"].
Proof.
  split; [split; reflexivity |].
  exact (proj1 (proj2 (short_history_reaches_user short_history_network
                         resting _ eq_refl eq_refl eq_refl eq_refl))).
Defined.

(* ===================================================================== *)
(** ** Further properties: the background actions, when they run *)
(* ===================================================================== *)

(** X22.  A background action on a page that is not busy.  It returns, makes
    exactly one request, its own, and leaves [puriraWriting] false.  A
    fulfilled request shows no alert.  A rejected web search shows the
    error; a rejected reminisce shows the "need at least 10" text when the
    error mentions [Not enough messages] and the error otherwise. *)
Theorem background_actions_outcomes (api : Client.ApiClient) (s : State) :
  busy s = false ->
  let web := triggerWebSearch api s in
  let rem := triggerReminisce api s in
  (outcome web = Returned tt /\ outcome rem = Returned tt)
  /\ (filter is_request (trace web) = [Request TriggerWebSearch]
      /\ filter is_request (trace rem) = [Request TriggerReminisce])
  /\ (puriraWriting (final web) = false /\ puriraWriting (final rem) = false)
  /\ filter is_alert (trace web) =
       match Client.triggerWebSearch api with
       | Fulfilled _ => []
       | Rejected err => [Alert ("Error: " ++ err)%string]
       end
  /\ filter is_alert (trace rem) =
       match Client.triggerReminisce api with
       | Fulfilled _ => []
       | Rejected err =>
           [Alert (if includes err "Not enough messages"
                   then "Not enough messages to reminisce about (need at least 10)"
                   else "Error: " ++ err)%string]
       end.
Proof.
  intros Hbusy. cbv zeta.
  unfold triggerWebSearch, triggerReminisce, toggleMenu, try_catch_finally,
    try_finally, try_catch, bind, get, modify, await, console, alert, emit,
    outcome, final, trace.
  change (busy (set_menuOpen (negb (menuOpen s)) s)) with (busy s).
  rewrite Hbusy.
  destruct (Client.triggerWebSearch api) as [found | err];
    destruct (Client.triggerReminisce api) as [recalled | err'];
    try destruct (includes err' "Not enough messages");
    repeat match goal with |- _ /\ _ => split end; reflexivity.
Qed.

Lemma background_actions_outcomes_witness :
  busy resting = false
  /\ filter is_alert (trace (triggerReminisce busy_service resting))
     = [Alert "Not enough messages to reminisce about (need at least 10)"].
Proof.
  split; [reflexivity |].
  destruct (background_actions_outcomes busy_service resting eq_refl)
    as (_ & _ & _ & _ & Halert).
  exact Halert.
Defined.
